(** * telegram-api-fetch: schema validation and the HTTP client

    The repository declares zod schemas for the payloads of the Telegram Bot
    API ([src/webhooks/schemas.ts], [src/client/keyboards.ts],
    [src/client/config.ts]) and a small client class
    ([src/client/index.ts]).  This development embeds

    - JavaScript values and strings ([value], [jsstring]),
    - the part of zod the schemas use, as a schema datatype with its
      validating interpreter ([Zod.schema], [Zod.run]),
    - the schemas of the repository, under their source names,
    - the data model of the specification ([DataModel]), against which
      the round trip of an update is stated,
    - the client: configuration, token masking, request encoding and the
      unwrapping of the response envelope,

    and proves the properties the specification states about them. *)

From Stdlib Require Import String Ascii.
From Stdlib Require Import List Bool Arith ZArith NArith QArith Lia.
Import ListNotations.

Set Implicit Arguments.
Set Warnings "-register-all".
Local Open Scope string_scope.
Local Open Scope list_scope.

(* ===================================================================== *)
(** * JavaScript strings *)
(* ===================================================================== *)

(** A JavaScript string is a sequence of UTF-16 code units; [length] is the
    number of code units, which is what [String.prototype.length] returns. *)
Definition jsstring := list N.

(** The string with the given ASCII literal as its code units. *)
Definition js (s : string) : jsstring :=
  List.map N_of_ascii (list_ascii_of_string s).

Fixpoint jsstring_eqb (a b : jsstring) : bool :=
  match a, b with
  | [], [] => true
  | x :: a', y :: b' => N.eqb x y && jsstring_eqb a' b'
  | _, _ => false
  end.

(** [String.prototype.slice]: a negative index counts from the end, both
    indices are clamped to the string. *)
Definition relative_index (len i : Z) : Z :=
  if (i <? 0)%Z then Z.max (len + i) 0 else Z.min i len.

Definition slice (s : jsstring) (start : Z) (stop : option Z) : jsstring :=
  let len := Z.of_nat (length s) in
  let from := relative_index len start in
  let to := match stop with
            | Some e => relative_index len e
            | None => len
            end in
  firstn (Z.to_nat (to - from)) (skipn (Z.to_nat from) s).

Fixpoint starts_with (s t : jsstring) : bool :=
  match t, s with
  | [], _ => true
  | y :: t', x :: s' => N.eqb x y && starts_with s' t'
  | _ :: _, [] => false
  end.

(** [String.prototype.includes]: [t] occurs in [s] at some position. *)
Fixpoint includes (s t : jsstring) : bool :=
  starts_with s t ||
  match s with
  | [] => false
  | _ :: s' => includes s' t
  end.

(** [String.prototype.trim]: the string without the white space and the
    line terminators at its two ends (tab, line feed, vertical tab, form
    feed, carriage return, space, no-break space, the spaces of the
    general category Zs, the line and paragraph separators and the byte
    order mark). *)
Definition is_white_space (c : N) : bool :=
  existsb (N.eqb c)
    [9; 10; 11; 12; 13; 32; 160; 5760; 8232; 8233; 8239; 8287; 12288; 65279]%N ||
  (N.leb 8192 c && N.leb c 8202)%N.

Fixpoint trim_start (s : jsstring) : jsstring :=
  match s with
  | [] => []
  | c :: s' => if is_white_space c then trim_start s' else s
  end.

Definition trim_end (s : jsstring) : jsstring := rev (trim_start (rev s)).

Definition trim (s : jsstring) : jsstring := trim_end (trim_start s).

(** Number of bytes of the UTF-8 encoding of a string (what [TextEncoder]
    produces): one to three bytes for a code unit of the basic plane, four
    for a surrogate pair, three (U+FFFD) for a lone surrogate. *)
Definition is_high_surrogate (c : N) : bool :=
  (N.leb 55296 c && N.leb c 56319)%N.

Definition is_low_surrogate (c : N) : bool :=
  (N.leb 56320 c && N.leb c 57343)%N.

Fixpoint utf8_length (s : jsstring) : nat :=
  match s with
  | [] => 0
  | c :: rest =>
      if (c <? 128)%N then 1 + utf8_length rest
      else if (c <? 2048)%N then 2 + utf8_length rest
      else if is_high_surrogate c then
        match rest with
        | lo :: rest' =>
            if is_low_surrogate lo then 4 + utf8_length rest'
            else 3 + utf8_length rest
        | [] => 3
        end
      else 3 + utf8_length rest
  end.

(* ===================================================================== *)
(** * JavaScript values *)
(* ===================================================================== *)

(** The untyped values a payload, a configuration or a response body is
    made of.  Numbers are the finite ones (a parsed JSON body holds no
    other), as rationals.  An object is the list of its own properties in
    insertion order; [lookup] is property access on it and finds the
    first binding of a key (an object has each key once). *)
Inductive value : Type :=
| VUndefined
| VNull
| VBool (b : bool)
| VNum (q : Q)
| VStr (s : jsstring)
| VArr (items : list value)
| VObj (props : list (jsstring * value)).

Definition num (z : Z) : value := VNum (inject_Z z).
Definition str (s : string) : value := VStr (js s).

Fixpoint lookup (A : Type) (k : jsstring) (ps : list (jsstring * A)) : option A :=
  match ps with
  | [] => None
  | (k', x) :: ps' => if jsstring_eqb k k' then Some x else lookup k ps'
  end.

(** [obj[key]]: [undefined] when the object has no such property. *)
Definition get (k : jsstring) (ps : list (jsstring * value)) : value :=
  match lookup k ps with
  | Some x => x
  | None => VUndefined
  end.

(** [key in obj]. *)
Definition has (A : Type) (k : jsstring) (ps : list (jsstring * A)) : bool :=
  match lookup k ps with
  | Some _ => true
  | None => false
  end.

Definition is_undefined (v : value) : bool :=
  match v with
  | VUndefined => true
  | _ => false
  end.

(** The object without its property [k] ([delete obj[k]]). *)
Fixpoint remove_key (A : Type) (k : jsstring) (ps : list (jsstring * A)) :
  list (jsstring * A) :=
  match ps with
  | [] => []
  | (k', x) :: ps' =>
      if jsstring_eqb k k' then remove_key k ps' else (k', x) :: remove_key k ps'
  end.

(** JavaScript truthiness of a value (used by [!data.ok]). *)
Definition truthy (v : value) : bool :=
  match v with
  | VUndefined | VNull => false
  | VBool b => b
  | VNum q => negb (Qnum q =? 0)%Z
  | VStr s => match s with [] => false | _ => true end
  | VArr _ | VObj _ => true
  end.

(** Induction on values that reaches the elements of arrays and the
    properties of objects. *)
Section ValueInduction.
Variable P : value -> Prop.
Hypothesis Hundef : P VUndefined.
Hypothesis Hnull : P VNull.
Hypothesis Hbool : forall b, P (VBool b).
Hypothesis Hnum : forall q, P (VNum q).
Hypothesis Hstr : forall s, P (VStr s).
Hypothesis Harr : forall xs, Forall P xs -> P (VArr xs).
Hypothesis Hobj : forall ps, Forall (fun kv => P (snd kv)) ps -> P (VObj ps).

Fixpoint value_deep_ind (v : value) : P v :=
  match v with
  | VUndefined => Hundef
  | VNull => Hnull
  | VBool b => Hbool b
  | VNum q => Hnum q
  | VStr s => Hstr s
  | VArr xs =>
      Harr ((fix all (l : list value) : Forall P l :=
               match l with
               | [] => Forall_nil P
               | x :: l' => Forall_cons x (value_deep_ind x) (all l')
               end) xs)
  | VObj ps =>
      Hobj ((fix all (l : list (jsstring * value)) :
               Forall (fun kv => P (snd kv)) l :=
               match l with
               | [] => Forall_nil _
               | kv :: l' =>
                   Forall_cons kv (value_deep_ind (snd kv)) (all l')
               end) ps)
  end.
End ValueInduction.

(* ===================================================================== *)
(** * The zod schemas the repository uses *)
(* ===================================================================== *)

(** A zod schema is a value built by the combinators [z.string()],
    [z.object({...})], ... and interpreted by [parse].  The datatype below
    has one constructor per combinator that occurs in the repository; the
    interpreter [run] follows zod 4 (zod is a dependency, its code is not
    part of the repository):

    - [z.object] accepts an object (not an array, not [null]), validates the
      declared keys and drops every other key; a declared key is set in the
      result when it is in the input or its result is not [undefined];
    - [.optional()] accepts [undefined] and otherwise defers to the inner
      schema, so [null] is not an absent value;
    - [.default(d)] replaces [undefined] by [d] (zod 3 also validates [d]
      with the inner schema; the defaults of the repository are valid);
    - [z.union] returns the result of the first option that accepts;
    - [z.lazy(() => S)] resolves [S] when a value is validated, not when
      the schema is built.  The two thunks of the repository return object
      schemas, which [resolve] gives by name; each resolution is followed
      by a descent into a property of the value, so validation is a
      structural recursion on the value;
    - [z.string().max(n)] and [.min(n)] compare [n] with the [length] of the
      string, its number of UTF-16 code units;
    - [z.string().url()] tests the string and replaces it by the string
      without the white space at its ends ([trim]); the checks of a string
      run in the order they were added, each on what the one before it
      left;
    - [z.number().int()] admits the integers of the safe range (zod 3 has no
      range), [.positive()] the numbers above zero;
    - [z.record(z.string(), V)] validates every value of an object with [V];
    - [.describe(text)] attaches documentation only and is left out.

    Failures are not told apart: [None] stands for the [ZodError] with its
    issues.  The test the URL check makes of a string is a parameter
    [is_url] of the interpreter: zod trims the string and hands it to the
    URL parser of the platform. *)
Module Zod.

Inductive string_check : Type :=
| MinLength (n : nat)
| MaxLength (n : nat)
| Url.

Inductive number_check : Type :=
| Int
| Positive.

Inductive schema : Type :=
| SString (checks : list string_check)
| SNumber (checks : list number_check)
| SBoolean
| SLiteral (b : bool)
| SEnum (options : list jsstring)
| SArray (element : schema)
| SObject (shape : list (jsstring * schema))
| SRecord (key_checks : list string_check) (val : schema)
| SOptional (inner : schema)
| SDefault (inner : schema) (default_value : value)
| SUnion (options : list schema)
| SLazy (name : string).

(** The declared keys of an object schema with their schemas. *)
Definition shape := list (jsstring * schema).

Definition max_safe_integer : Z := 9007199254740991.

(** [Number.isInteger]. *)
Definition is_integer (q : Q) : bool :=
  (Qnum q mod Zpos (Qden q) =? 0)%Z.

(** [Number.isSafeInteger]. *)
Definition is_safe_integer (q : Q) : bool :=
  is_integer q &&
  (Z.abs (Qnum q / Zpos (Qden q)) <=? max_safe_integer)%Z.

Definition number_check_ok (q : Q) (c : number_check) : bool :=
  match c with
  | Int => is_safe_integer q
  | Positive => (0 <? Qnum q)%Z
  end.

(** What a schema makes of [undefined], the value of a property the input
    does not have. *)
Fixpoint run_undefined (s : schema) : option value :=
  match s with
  | SOptional _ => Some VUndefined
  | SDefault _ d => Some d
  | SUnion opts =>
      (fix first (os : list schema) : option value :=
         match os with
         | [] => None
         | o :: os' =>
             match run_undefined o with
             | Some r => Some r
             | None => first os'
             end
         end) opts
  | _ => None
  end.

(** All elements valid, in order; [None] as soon as one is not. *)
Fixpoint sequence (A : Type) (l : list (option A)) : option (list A) :=
  match l with
  | [] => Some []
  | None :: _ => None
  | Some x :: l' =>
      match sequence l' with
      | Some xs => Some (x :: xs)
      | None => None
      end
  end.

(** The fields of the result of [z.object]: every declared key is
    validated ([field]); the result is invalid when one of them is, and
    otherwise holds, in the order of the shape, the keys the input has
    ([present]) and the keys whose result is not [undefined]. *)
Fixpoint object_fields (present : jsstring -> bool)
  (field : jsstring -> schema -> option value) (sh : shape) :
  option (list (jsstring * value)) :=
  match sh with
  | [] => Some []
  | (k, sk) :: rest =>
      match field k sk, object_fields present field rest with
      | Some r, Some out =>
          Some (if present k || negb (is_undefined r) then (k, r) :: out else out)
      | _, _ => None
      end
  end.

Section Interpreter.

Variable is_url : jsstring -> bool.

(** The object schema a [z.lazy] reference stands for, by name. *)
Variable resolve : string -> shape.

(** One check of a string: [None] when it fails, and otherwise the
    string it leaves. *)
Definition check_string (s : jsstring) (c : string_check) : option jsstring :=
  match c with
  | MinLength n => if (n <=? length s)%nat then Some s else None
  | MaxLength n => if (length s <=? n)%nat then Some s else None
  | Url => if is_url s then Some (trim s) else None
  end.

Fixpoint check_strings (s : jsstring) (cs : list string_check) : option jsstring :=
  match cs with
  | [] => Some s
  | c :: cs' =>
      match check_string s c with
      | Some s' => check_strings s' cs'
      | None => None
      end
  end.

(** Validation of [v] against a schema.  The recursion is on the value:
    [props] and [items] hold the validators of the properties and elements
    of [v]; a schema that wraps another one ([optional], [default],
    [union]) is followed on the same value by the inner [on]. *)
Fixpoint run (v : value) {struct v} : schema -> option value :=
  let props : list (jsstring * (schema -> option value)) :=
    match v with
    | VObj ps =>
        (fix each (l : list (jsstring * value)) :=
           match l with
           | [] => []
           | (k, x) :: l' => (k, run x) :: each l'
           end) ps
    | _ => []
    end in
  let items : list (schema -> option value) :=
    match v with
    | VArr xs =>
        (fix each (l : list value) :=
           match l with
           | [] => []
           | x :: l' => run x :: each l'
           end) xs
    | _ => []
    end in
  let object (sh : shape) : option value :=
    match v with
    | VObj _ =>
        option_map VObj
          (object_fields (fun k => has k props)
             (fun k sk =>
                match lookup k props with
                | Some validate => validate sk
                | None => run_undefined sk
                end) sh)
    | _ => None
    end in
  fix on (s : schema) : option value :=
    match s with
    | SString cs =>
        match v with
        | VStr x => option_map VStr (check_strings x cs)
        | _ => None
        end
    | SNumber cs =>
        match v with
        | VNum q => if forallb (number_check_ok q) cs then Some v else None
        | _ => None
        end
    | SBoolean =>
        match v with
        | VBool _ => Some v
        | _ => None
        end
    | SLiteral b =>
        match v with
        | VBool b' => if Bool.eqb b b' then Some v else None
        | _ => None
        end
    | SEnum options =>
        match v with
        | VStr x => if existsb (jsstring_eqb x) options then Some v else None
        | _ => None
        end
    | SArray element =>
        match v with
        | VArr _ =>
            option_map VArr (sequence (List.map (fun validate => validate element) items))
        | _ => None
        end
    | SObject sh => object sh
    | SRecord key_checks val =>
        match v with
        | VObj _ =>
            option_map VObj
              (sequence
                 (List.map
                    (fun kp : jsstring * (schema -> option value) =>
                       match check_strings (fst kp) key_checks with
                       | Some key => option_map (pair key) (snd kp val)
                       | None => None
                       end)
                    props))
        | _ => None
        end
    | SOptional inner =>
        match v with
        | VUndefined => Some VUndefined
        | _ => on inner
        end
    | SDefault inner d =>
        match v with
        | VUndefined => Some d
        | _ =>
            match on inner with
            | Some VUndefined => Some d
            | r => r
            end
        end
    | SUnion options =>
        (fix first (os : list schema) : option value :=
           match os with
           | [] => None
           | o :: os' =>
               match on o with
               | Some r => Some r
               | None => first os'
               end
           end) options
    | SLazy name => object (resolve name)
    end.

(** [schema.safeParse(v)]; [None] is the failure [schema.parse(v)] throws
    as a [ZodError]. *)
Definition parse (s : schema) (v : value) : option value := run v s.

(** The properties of an object with their validators: the list [props]
    that [run] builds for an object. *)
Fixpoint props_of (l : list (jsstring * value)) :
  list (jsstring * (schema -> option value)) :=
  match l with
  | [] => []
  | (k, x) :: l' => (k, run x) :: props_of l'
  end.

(** The result of one declared key of an object schema on the properties
    [ps]: the property validated, or [undefined] validated when the object
    has no such property. *)
Definition field (ps : list (jsstring * value)) (k : jsstring) (sk : schema) :
  option value :=
  match lookup k ps with
  | Some x => run x sk
  | None => run_undefined sk
  end.

End Interpreter.
(** ** Relations between payloads and schemas

    These relations state what the specification says about payloads; they
    are not used by the interpreter. *)

Inductive opt_rel (A : Type) (R : A -> A -> Prop) : option A -> option A -> Prop :=
| opt_rel_none : opt_rel R None None
| opt_rel_some (x y : A) : R x y -> opt_rel R (Some x) (Some y).

Inductive opt_all (A : Type) (P : A -> Prop) (Q : Prop) : option A -> Prop :=
| opt_all_none : Q -> opt_all P Q None
| opt_all_some (x : A) : P x -> opt_all P Q (Some x).

Definition is_optional (s : schema) : Prop :=
  exists inner, s = SOptional inner.

Definition is_leaf (v : value) : bool :=
  match v with
  | VArr _ | VObj _ => false
  | _ => true
  end.

(** No key is declared twice in an object schema (a JavaScript object
    literal has each key once). *)
Fixpoint unique (keys : list jsstring) : bool :=
  match keys with
  | [] => true
  | k :: keys' => negb (existsb (jsstring_eqb k) keys') && unique keys'
  end.

Fixpoint unique_keys (s : schema) : bool :=
  match s with
  | SArray element => unique_keys element
  | SObject sh =>
      unique (List.map fst sh) &&
      (fix all (l : shape) : bool :=
         match l with
         | [] => true
         | f :: l' => unique_keys (snd f) && all l'
         end) sh
  | SRecord _ val => unique_keys val
  | SOptional inner => unique_keys inner
  | SDefault inner _ => unique_keys inner
  | SUnion options =>
      (fix all (l : list schema) : bool :=
         match l with
         | [] => true
         | o :: l' => unique_keys o && all l'
         end) options
  | _ => true
  end.

Section Relations.

Variable is_url : jsstring -> bool.
Variable resolve : string -> shape.

(** [agree s a b]: the values [a] and [b] have the same content at every
    place the schema [s] declares.  Two objects agree when, for each
    declared key, both lack it or both have it with agreeing values; the
    keys the schema does not declare are not compared, so [b] may be [a]
    with further fields, at the top or inside nested objects. *)
Inductive agree : schema -> value -> value -> Prop :=
| agree_same (s : schema) (v : value) : agree s v v
| agree_optional (s : schema) (a b : value) :
    agree s a b -> agree (SOptional s) a b
| agree_array (s : schema) (xs ys : list value) :
    Forall2 (agree s) xs ys -> agree (SArray s) (VArr xs) (VArr ys)
| agree_object (sh : shape) (ps qs : list (jsstring * value)) :
    Forall (fun f => opt_rel (agree (snd f)) (lookup (fst f) ps) (lookup (fst f) qs)) sh ->
    agree (SObject sh) (VObj ps) (VObj qs)
| agree_lazy (name : string) (ps qs : list (jsstring * value)) :
    Forall (fun f => opt_rel (agree (snd f)) (lookup (fst f) ps) (lookup (fst f) qs))
      (resolve name) ->
    agree (SLazy name) (VObj ps) (VObj qs).

(** [only_declared s v]: every property of every object in [v] is one the
    schema declares at that place. *)
Inductive only_declared : schema -> value -> Prop :=
| only_leaf (s : schema) (v : value) : is_leaf v = true -> only_declared s v
| only_array (s : schema) (xs : list value) :
    Forall (only_declared s) xs -> only_declared (SArray s) (VArr xs)
| only_object (sh : shape) (ps : list (jsstring * value)) :
    Forall (fun kv => exists sk, In (fst kv, sk) sh /\ only_declared sk (snd kv)) ps ->
    only_declared (SObject sh) (VObj ps)
| only_lazy (name : string) (ps : list (jsstring * value)) :
    Forall (fun kv => exists sk, In (fst kv, sk) (resolve name) /\ only_declared sk (snd kv)) ps ->
    only_declared (SLazy name) (VObj ps)
| only_record (cs : list string_check) (val : schema) (ps : list (jsstring * value)) :
    Forall (fun kv => only_declared val (snd kv)) ps ->
    only_declared (SRecord cs val) (VObj ps)
| only_optional (s : schema) (v : value) :
    only_declared s v -> only_declared (SOptional s) v
| only_default (s : schema) (d v : value) :
    only_declared s v -> only_declared (SDefault s d) v
| only_default_value (s : schema) (d : value) : only_declared (SDefault s d) d
| only_union (options : list schema) (v : value) :
    Exists (fun o => only_declared o v) options -> only_declared (SUnion options) v.

End Relations.

(** Induction on schemas that reaches the fields of a shape and the
    options of a union. *)
Section SchemaInduction.
Variable P : schema -> Prop.
Hypothesis Hstring : forall cs, P (SString cs).
Hypothesis Hnumber : forall cs, P (SNumber cs).
Hypothesis Hboolean : P SBoolean.
Hypothesis Hliteral : forall b, P (SLiteral b).
Hypothesis Henum : forall options, P (SEnum options).
Hypothesis Harray : forall element, P element -> P (SArray element).
Hypothesis Hobject : forall sh, Forall (fun f => P (snd f)) sh -> P (SObject sh).
Hypothesis Hrecord : forall cs val, P val -> P (SRecord cs val).
Hypothesis Hoptional : forall inner, P inner -> P (SOptional inner).
Hypothesis Hdefault : forall inner d, P inner -> P (SDefault inner d).
Hypothesis Hunion : forall options, Forall P options -> P (SUnion options).
Hypothesis Hlazy : forall name, P (SLazy name).

Fixpoint schema_deep_ind (s : schema) : P s :=
  match s with
  | SString cs => Hstring cs
  | SNumber cs => Hnumber cs
  | SBoolean => Hboolean
  | SLiteral b => Hliteral b
  | SEnum options => Henum options
  | SArray element => Harray (schema_deep_ind element)
  | SObject sh =>
      Hobject ((fix all (l : shape) : Forall (fun f => P (snd f)) l :=
                  match l with
                  | [] => Forall_nil _
                  | f :: l' => Forall_cons f (schema_deep_ind (snd f)) (all l')
                  end) sh)
  | SRecord cs val => Hrecord cs (schema_deep_ind val)
  | SOptional inner => Hoptional (schema_deep_ind inner)
  | SDefault inner d => Hdefault d (schema_deep_ind inner)
  | SUnion options =>
      Hunion ((fix all (l : list schema) : Forall P l :=
                 match l with
                 | [] => Forall_nil P
                 | o :: l' => Forall_cons o (schema_deep_ind o) (all l')
                 end) options)
  | SLazy name => Hlazy name
  end.
End SchemaInduction.

Definition is_some (A : Type) (o : option A) : bool :=
  match o with
  | Some _ => true
  | None => false
  end.

End Zod.

Import Zod.

(** ** The combinators, as the source writes them

    [z_object] takes the shape in the order of the object literal of the
    source; the methods [.min], [.max], [.url], [.int], [.positive] add a
    check to a string or number schema. *)
Definition z_string : schema := SString [].
Definition z_number : schema := SNumber [].
Definition z_boolean : schema := SBoolean.
Definition z_literal (b : bool) : schema := SLiteral b.
Definition z_enum (options : list string) : schema := SEnum (List.map js options).
Definition z_array (element : schema) : schema := SArray element.
Definition z_object (fields : list (string * schema)) : schema :=
  SObject (List.map (fun f => (js (fst f), snd f)) fields).
Definition z_union (options : list schema) : schema := SUnion options.
Definition z_lazy (name : string) : schema := SLazy name.

(** [z.record(key, val)] for a string schema [key]. *)
Definition z_record (key val : schema) : schema :=
  match key with
  | SString cs => SRecord cs val
  | _ => SRecord [] val
  end.

Definition with_string_check (c : string_check) (s : schema) : schema :=
  match s with
  | SString cs => SString (cs ++ [c])
  | _ => s
  end.

Definition with_number_check (c : number_check) (s : schema) : schema :=
  match s with
  | SNumber cs => SNumber (cs ++ [c])
  | _ => s
  end.

Definition min (n : nat) : schema -> schema := with_string_check (MinLength n).
Definition max (n : nat) : schema -> schema := with_string_check (MaxLength n).
Definition url : schema -> schema := with_string_check Url.
Definition int : schema -> schema := with_number_check Int.
Definition positive : schema -> schema := with_number_check Positive.
Definition optional (s : schema) : schema := SOptional s.
Definition default (d : value) (s : schema) : schema := SDefault s d.

(* ===================================================================== *)
(** * src/client/keyboards.ts *)
(* ===================================================================== *)

Definition InlineKeyboardButtonSchema : schema :=
  z_object
    [ ("text", z_string);
      ("url", optional z_string);
      ("callback_data", optional (max 64 z_string));
      ("web_app", optional (z_object [ ("url", url z_string) ]));
      ("login_url",
        optional
          (z_object
             [ ("url", url z_string);
               ("forward_text", optional z_string);
               ("bot_username", optional z_string);
               ("request_write_access", optional z_boolean) ]));
      ("switch_inline_query", optional z_string);
      ("switch_inline_query_current_chat", optional z_string);
      ("switch_inline_query_chosen_chat",
        optional
          (z_object
             [ ("query", optional z_string);
               ("allow_user_chats", optional z_boolean);
               ("allow_bot_chats", optional z_boolean);
               ("allow_group_chats", optional z_boolean);
               ("allow_channel_chats", optional z_boolean) ]));
      ("callback_game", optional (z_object []));
      ("pay", optional z_boolean) ].

Definition InlineKeyboardMarkupSchema : schema :=
  z_object [ ("inline_keyboard", z_array (z_array InlineKeyboardButtonSchema)) ].

Definition KeyboardButtonSchema : schema :=
  z_object
    [ ("text", z_string);
      ("request_users",
        optional
          (z_object
             [ ("request_id", int z_number);
               ("user_is_bot", optional z_boolean);
               ("user_is_premium", optional z_boolean);
               ("max_quantity", optional (int z_number));
               ("request_name", optional z_boolean);
               ("request_username", optional z_boolean);
               ("request_photo", optional z_boolean) ]));
      ("request_chat",
        optional
          (z_object
             [ ("request_id", int z_number);
               ("chat_is_channel", z_boolean);
               ("chat_is_forum", optional z_boolean);
               ("chat_has_username", optional z_boolean);
               ("chat_is_created", optional z_boolean);
               ("user_administrator_rights", optional (z_record z_string z_boolean));
               ("bot_administrator_rights", optional (z_record z_string z_boolean));
               ("bot_is_member", optional z_boolean);
               ("request_title", optional z_boolean);
               ("request_username", optional z_boolean);
               ("request_photo", optional z_boolean) ]));
      ("request_contact", optional z_boolean);
      ("request_location", optional z_boolean);
      ("request_poll",
        optional (z_object [ ("type", optional (z_enum ["quiz"; "regular"])) ]));
      ("web_app", optional (z_object [ ("url", url z_string) ])) ].

Definition ReplyKeyboardMarkupSchema : schema :=
  z_object
    [ ("keyboard", z_array (z_array KeyboardButtonSchema));
      ("is_persistent", optional z_boolean);
      ("resize_keyboard", optional z_boolean);
      ("one_time_keyboard", optional z_boolean);
      ("input_field_placeholder", optional (max 64 z_string));
      ("selective", optional z_boolean) ].

Definition ReplyKeyboardRemoveSchema : schema :=
  z_object
    [ ("remove_keyboard", z_literal true);
      ("selective", optional z_boolean) ].

Definition ForceReplySchema : schema :=
  z_object
    [ ("force_reply", z_literal true);
      ("input_field_placeholder", optional (max 64 z_string));
      ("selective", optional z_boolean) ].

Definition ReplyMarkupSchema : schema :=
  z_union
    [ InlineKeyboardMarkupSchema;
      ReplyKeyboardMarkupSchema;
      ReplyKeyboardRemoveSchema;
      ForceReplySchema ].

(* ===================================================================== *)
(** * src/webhooks/schemas.ts *)
(* ===================================================================== *)

Definition UserSchema : schema :=
  z_object
    [ ("id", int z_number);
      ("is_bot", z_boolean);
      ("first_name", z_string);
      ("last_name", optional z_string);
      ("username", optional z_string);
      ("language_code", optional z_string);
      ("is_premium", optional z_boolean);
      ("added_to_attachment_menu", optional z_boolean);
      ("can_join_groups", optional z_boolean);
      ("can_read_all_group_messages", optional z_boolean);
      ("supports_inline_queries", optional z_boolean) ].

Definition ChatSchema : schema :=
  z_object
    [ ("id", int z_number);
      ("type", z_enum ["private"; "group"; "supergroup"; "channel"]);
      ("title", optional z_string);
      ("username", optional z_string);
      ("first_name", optional z_string);
      ("last_name", optional z_string);
      ("is_forum", optional z_boolean) ].

Definition PhotoSizeSchema : schema :=
  z_object
    [ ("file_id", z_string);
      ("file_unique_id", z_string);
      ("width", int z_number);
      ("height", int z_number);
      ("file_size", optional (int z_number)) ].

Definition LocationSchema : schema :=
  z_object
    [ ("longitude", z_number);
      ("latitude", z_number);
      ("horizontal_accuracy", optional z_number);
      ("live_period", optional (int z_number));
      ("heading", optional (int z_number));
      ("proximity_alert_radius", optional (int z_number)) ].

Definition MessageEntitySchema : schema :=
  z_object
    [ ("type",
        z_enum
          [ "mention"; "hashtag"; "cashtag"; "bot_command"; "url"; "email";
            "phone_number"; "bold"; "italic"; "underline"; "strikethrough";
            "spoiler"; "code"; "pre"; "text_link"; "text_mention";
            "custom_emoji" ]);
      ("offset", int z_number);
      ("length", int z_number);
      ("url", optional z_string);
      ("user", optional (z_lazy "UserSchema"));
      ("language", optional z_string);
      ("custom_emoji_id", optional z_string) ].

Definition MessageSchema : schema :=
  z_object
    [ ("message_id", int z_number);
      ("message_thread_id", optional (int z_number));
      ("from", optional UserSchema);
      ("sender_chat", optional ChatSchema);
      ("date", int z_number);
      ("chat", ChatSchema);
      ("forward_from", optional UserSchema);
      ("forward_from_chat", optional ChatSchema);
      ("forward_from_message_id", optional (int z_number));
      ("forward_signature", optional z_string);
      ("forward_sender_name", optional z_string);
      ("forward_date", optional (int z_number));
      ("is_topic_message", optional z_boolean);
      ("is_automatic_forward", optional z_boolean);
      ("reply_to_message", optional (z_lazy "MessageSchema"));
      ("via_bot", optional UserSchema);
      ("edit_date", optional (int z_number));
      ("has_protected_content", optional z_boolean);
      ("media_group_id", optional z_string);
      ("author_signature", optional z_string);
      ("text", optional z_string);
      ("entities", optional (z_array MessageEntitySchema));
      ("caption", optional z_string);
      ("caption_entities", optional (z_array MessageEntitySchema));
      ("photo", optional (z_array PhotoSizeSchema));
      ("location", optional LocationSchema);
      ("reply_markup", optional InlineKeyboardMarkupSchema) ].

Definition CallbackQuerySchema : schema :=
  z_object
    [ ("id", z_string);
      ("from", UserSchema);
      ("message", optional MessageSchema);
      ("inline_message_id", optional z_string);
      ("chat_instance", z_string);
      ("data", optional z_string);
      ("game_short_name", optional z_string) ].

Definition UpdateSchema : schema :=
  z_object
    [ ("update_id", int z_number);
      ("message", optional MessageSchema);
      ("edited_message", optional MessageSchema);
      ("channel_post", optional MessageSchema);
      ("edited_channel_post", optional MessageSchema);
      ("callback_query", optional CallbackQuerySchema) ].

(** The schemas the [z.lazy] thunks of the file return. *)
Definition shape_of (s : schema) : shape :=
  match s with
  | SObject sh => sh
  | _ => []
  end.

Definition resolve (name : string) : shape :=
  if String.eqb name "UserSchema" then shape_of UserSchema
  else if String.eqb name "MessageSchema" then shape_of MessageSchema
  else [].

(* ===================================================================== *)
(** * The data model of the specification *)
(* ===================================================================== *)

(** The entities of an update as the data model of the specification
    describes them, written from its table and not from the schemas: the
    attributes it names, required or optional, each with the kind it
    states.  Where the table names an attribute and leaves its kind out,
    the kind is that of the platform's API (names and texts are strings,
    flags are booleans, sizes and periods are integers); where it names a
    group (the capability flags of a bot, the accuracy and live tracking
    of a location, the variants of [switch_inline_query]), the attributes
    are those of the platform's API.  [callback_data] is capped at 64
    bytes. *)
Module DataModel.

Inductive entity : Type :=
| User
| Chat
| PhotoSize
| Location
| MessageEntity
| Message
| CallbackQuery
| Update
| InlineKeyboardMarkup
| InlineKeyboardButton
| WebApp
| LoginUrl
| ChosenChat
| CallbackGame.

Inductive kind : Type :=
| Integer
| Float
| Boolean
| Text
| TextUpTo (bytes : nat)
| UrlText
| OneOf (names : list string)
| Sequence (element : kind)
| An (e : entity).

Record attribute : Type := {
  attr_name : string;
  attr_kind : kind;
  attr_required : bool
}.

Definition must (name : string) (k : kind) : attribute :=
  {| attr_name := name; attr_kind := k; attr_required := true |}.

Definition may (name : string) (k : kind) : attribute :=
  {| attr_name := name; attr_kind := k; attr_required := false |}.

(** The kinds of span of a message entity. *)
Definition span_kinds : list string :=
  [ "mention"; "hashtag"; "cashtag"; "bot_command"; "url"; "email";
    "phone_number"; "bold"; "italic"; "underline"; "strikethrough"; "spoiler";
    "code"; "pre"; "text_link"; "text_mention"; "custom_emoji" ].

Definition attributes (e : entity) : list attribute :=
  match e with
  | User =>
      [ must "id" Integer; must "is_bot" Boolean; must "first_name" Text;
        may "last_name" Text; may "username" Text; may "language_code" Text;
        may "is_premium" Boolean; may "added_to_attachment_menu" Boolean;
        may "can_join_groups" Boolean; may "can_read_all_group_messages" Boolean;
        may "supports_inline_queries" Boolean ]
  | Chat =>
      [ must "id" Integer;
        must "type" (OneOf [ "private"; "group"; "supergroup"; "channel" ]);
        may "title" Text; may "username" Text; may "first_name" Text;
        may "last_name" Text; may "is_forum" Boolean ]
  | PhotoSize =>
      [ must "file_id" Text; must "file_unique_id" Text; must "width" Integer;
        must "height" Integer; may "file_size" Integer ]
  | Location =>
      [ must "longitude" Float; must "latitude" Float;
        may "horizontal_accuracy" Float; may "live_period" Integer;
        may "heading" Integer; may "proximity_alert_radius" Integer ]
  | MessageEntity =>
      [ must "type" (OneOf span_kinds); must "offset" Integer; must "length" Integer;
        may "url" Text; may "user" (An User); may "language" Text;
        may "custom_emoji_id" Text ]
  | Message =>
      [ must "message_id" Integer; must "date" Integer; must "chat" (An Chat);
        may "from" (An User); may "text" Text; may "caption" Text;
        may "entities" (Sequence (An MessageEntity));
        may "caption_entities" (Sequence (An MessageEntity));
        may "photo" (Sequence (An PhotoSize)); may "location" (An Location);
        may "reply_to_message" (An Message);
        may "reply_markup" (An InlineKeyboardMarkup) ]
  | CallbackQuery =>
      [ must "id" Text; must "from" (An User); may "message" (An Message);
        must "chat_instance" Text; may "data" Text; may "game_short_name" Text ]
  | Update =>
      [ must "update_id" Integer; may "message" (An Message);
        may "edited_message" (An Message); may "channel_post" (An Message);
        may "edited_channel_post" (An Message);
        may "callback_query" (An CallbackQuery) ]
  | InlineKeyboardMarkup =>
      [ must "inline_keyboard" (Sequence (Sequence (An InlineKeyboardButton))) ]
  | InlineKeyboardButton =>
      [ must "text" Text; may "url" Text; may "callback_data" (TextUpTo 64);
        may "web_app" (An WebApp); may "login_url" (An LoginUrl);
        may "switch_inline_query" Text; may "switch_inline_query_current_chat" Text;
        may "switch_inline_query_chosen_chat" (An ChosenChat);
        may "callback_game" (An CallbackGame); may "pay" Boolean ]
  | WebApp => [ must "url" UrlText ]
  | LoginUrl =>
      [ must "url" UrlText; may "forward_text" Text; may "bot_username" Text;
        may "request_write_access" Boolean ]
  | ChosenChat =>
      [ may "query" Text; may "allow_user_chats" Boolean;
        may "allow_bot_chats" Boolean; may "allow_group_chats" Boolean;
        may "allow_channel_chats" Boolean ]
  | CallbackGame => []
  end.

(** The attribute of a given name. *)
Definition find_attribute (k : jsstring) (attrs : list attribute) : option attribute :=
  find (fun a => jsstring_eqb k (js (attr_name a))) attrs.

Definition has_attribute (k : jsstring) (attrs : list attribute) : bool :=
  is_some (find_attribute k attrs).

(** The kinds of value that hold no other value and are no URL. *)
Definition is_plain (k : kind) : bool :=
  match k with
  | UrlText | Sequence _ | An _ => false
  | _ => true
  end.

Section Validity.

(** What the platform takes for a URL. *)
Variable is_url : jsstring -> bool.

(** [valid k v]: the payload [v] is a value of kind [k] of the data model.
    An entity is an object that has the required attributes, whose
    attributes are valid for their kinds, and that has no property besides
    the attributes of the entity. *)
Inductive valid : kind -> value -> Prop :=
| valid_integer (q : Q) : is_integer q = true -> valid Integer (VNum q)
| valid_float (q : Q) : valid Float (VNum q)
| valid_boolean (b : bool) : valid Boolean (VBool b)
| valid_text (s : jsstring) : valid Text (VStr s)
| valid_text_up_to (bytes : nat) (s : jsstring) :
    (utf8_length s <= bytes)%nat -> valid (TextUpTo bytes) (VStr s)
| valid_url (u : jsstring) : is_url u = true -> valid UrlText (VStr u)
| valid_one_of (names : list string) (x : jsstring) :
    In x (List.map js names) -> valid (OneOf names) (VStr x)
| valid_sequence (k : kind) (xs : list value) :
    Forall (valid k) xs -> valid (Sequence k) (VArr xs)
| valid_entity (e : entity) (ps : list (jsstring * value)) :
    Forall
      (fun a =>
         opt_all (valid (attr_kind a)) (attr_required a = false)
           (lookup (js (attr_name a)) ps))
      (attributes e) ->
    Forall (fun kv => has_attribute (fst kv) (attributes e) = true) ps ->
    valid (An e) (VObj ps).

(** A test of [valid k v] that looks no more than [depth] values deep
    into the payload; it decides the closed examples. *)
Fixpoint valid_within (depth : nat) (k : kind) (v : value) : bool :=
  match depth with
  | O => false
  | S depth' =>
      match k, v with
      | Integer, VNum q => is_integer q
      | Float, VNum _ => true
      | Boolean, VBool _ => true
      | Text, VStr _ => true
      | TextUpTo bytes, VStr s => (utf8_length s <=? bytes)%nat
      | UrlText, VStr u => is_url u
      | OneOf names, VStr x => existsb (jsstring_eqb x) (List.map js names)
      | Sequence k', VArr xs => forallb (valid_within depth' k') xs
      | An e, VObj ps =>
          forallb
            (fun a =>
               match lookup (js (attr_name a)) ps with
               | Some x => valid_within depth' (attr_kind a) x
               | None => negb (attr_required a)
               end)
            (attributes e) &&
          forallb (fun kv => has_attribute (fst kv) (attributes e)) ps
      | _, _ => false
      end
  end.

End Validity.

(** [kept k v r]: the result [r] has what the payload [v] of kind [k]
    has, field by field: the same scalar, a URL without the white space at
    its ends, sequences of the same length with kept elements, and for an
    entity each attribute absent on both sides or present on both with a
    kept value, and no property besides the attributes. *)
Inductive kept : kind -> value -> value -> Prop :=
| kept_plain (k : kind) (v : value) : is_plain k = true -> kept k v v
| kept_url (u : jsstring) : kept UrlText (VStr u) (VStr (trim u))
| kept_sequence (k : kind) (xs rs : list value) :
    Forall2 (kept k) xs rs -> kept (Sequence k) (VArr xs) (VArr rs)
| kept_entity (e : entity) (ps out : list (jsstring * value)) :
    Forall
      (fun a =>
         opt_rel (kept (attr_kind a))
           (lookup (js (attr_name a)) ps) (lookup (js (attr_name a)) out))
      (attributes e) ->
    (forall k, has_attribute k (attributes e) = false -> lookup k out = None) ->
    kept (An e) (VObj ps) (VObj out).

(** Every integer of a payload is in the safe range, between
    [-(2^53 - 1)] and [2^53 - 1]. *)
Fixpoint safe_integers (v : value) : bool :=
  match v with
  | VNum q => negb (is_integer q) || is_safe_integer q
  | VArr xs =>
      (fix all (l : list value) : bool :=
         match l with
         | [] => true
         | x :: l' => safe_integers x && all l'
         end) xs
  | VObj ps =>
      (fix all (l : list (jsstring * value)) : bool :=
         match l with
         | [] => true
         | kv :: l' => safe_integers (snd kv) && all l'
         end) ps
  | _ => true
  end.

End DataModel.

Import DataModel.

(** ** The schemas against the data model

    [implements s k]: the schema [s] is the validator of the kind [k].  An
    object schema is the validator of an entity when it declares each
    attribute of the entity, a required one with the validator of its
    kind and an optional one with the optional validator of its kind, and
    every other key it declares is optional.  A [z.lazy] reference stands
    for the entity of its name. *)
Definition entity_index (e : entity) : nat :=
  match e with
  | User => 0
  | Chat => 1
  | PhotoSize => 2
  | Location => 3
  | MessageEntity => 4
  | Message => 5
  | CallbackQuery => 6
  | Update => 7
  | InlineKeyboardMarkup => 8
  | InlineKeyboardButton => 9
  | WebApp => 10
  | LoginUrl => 11
  | ChosenChat => 12
  | CallbackGame => 13
  end.

Definition lazy_entity (name : string) : option entity :=
  if String.eqb name "UserSchema" then Some User
  else if String.eqb name "MessageSchema" then Some Message
  else None.

Fixpoint same_strings (a b : list jsstring) : bool :=
  match a, b with
  | [], [] => true
  | x :: a', y :: b' => jsstring_eqb x y && same_strings a' b'
  | _, _ => false
  end.

Fixpoint implements (s : schema) (k : kind) {struct s} : bool :=
  match s with
  | SString cs =>
      match cs, k with
      | [], Text => true
      | [MaxLength n], TextUpTo bytes => Nat.eqb n bytes
      | [Url], UrlText => true
      | _, _ => false
      end
  | SNumber cs =>
      match cs, k with
      | [Int], Integer => true
      | [], Float => true
      | _, _ => false
      end
  | SBoolean =>
      match k with
      | Boolean => true
      | _ => false
      end
  | SEnum options =>
      match k with
      | OneOf names => same_strings options (List.map js names)
      | _ => false
      end
  | SArray element =>
      match k with
      | Sequence k' => implements element k'
      | _ => false
      end
  | SObject sh =>
      match k with
      | An e =>
          unique (List.map fst sh) &&
          unique (List.map (fun a => js (attr_name a)) (attributes e)) &&
          forallb (fun a => has (js (attr_name a)) sh) (attributes e) &&
          (fix fields (l : shape) : bool :=
             match l with
             | [] => true
             | f :: l' =>
                 match find_attribute (fst f) (attributes e) with
                 | Some a =>
                     if attr_required a then implements (snd f) (attr_kind a)
                     else
                       match snd f with
                       | SOptional inner => implements inner (attr_kind a)
                       | _ => false
                       end
                 | None =>
                     match snd f with
                     | SOptional _ => true
                     | _ => false
                     end
                 end && fields l'
             end) sh
      | _ => false
      end
  | SLazy name =>
      match k, lazy_entity name with
      | An e, Some e' => Nat.eqb (entity_index e') (entity_index e)
      | _, _ => false
      end
  | _ => false
  end.

(* ===================================================================== *)
(** * src/client/config.ts *)
(* ===================================================================== *)

Definition TelegramConfigSchema : schema :=
  z_object
    [ ("botToken", min 1 z_string);
      ("baseUrl", default (str "https://api.telegram.org") (url z_string));
      ("timeout", default (num 30000) (positive (int z_number))) ].

(** [TelegramConfig], the type inferred from the schema. *)
Record TelegramConfig : Type := {
  botToken : jsstring;
  baseUrl : jsstring;
  timeout : Q
}.

(** The typed view of a parsed configuration. *)
Definition as_config (v : value) : option TelegramConfig :=
  match v with
  | VObj ps =>
      match get (js "botToken") ps, get (js "baseUrl") ps, get (js "timeout") ps with
      | VStr t, VStr b, VNum q =>
          Some {| botToken := t; baseUrl := b; timeout := q |}
      | _, _, _ => None
      end
  | _ => None
  end.

(** [class TelegramAPIError extends Error]: the two public fields, and the
    [message] and [name] of the [Error]. *)
Record TelegramAPIError : Type := {
  errorCode : value;
  description : value;
  message : jsstring;
  name : jsstring
}.

(** What a call throws. *)
Inductive js_error : Type :=
| APIError (e : TelegramAPIError)
| ZodError
| JsError (error_name error_message : jsstring)
| NotAnError (thrown : value).

Inductive outcome (A : Type) : Type :=
| Returned (a : A)
| Threw (e : js_error).

Arguments Returned {A} a.
Arguments Threw {A} e.

(* ===================================================================== *)
(** * src/client/index.ts *)
(* ===================================================================== *)

(** A [Blob] or a [File] (a [File] is a [Blob] with a name). *)
Inductive binary : Type :=
| Blob (content : list N)
| File (file_name : jsstring) (content : list N).

(** The value of a request parameter: binary content or a plain value. *)
Inductive param : Type :=
| PBinary (b : binary)
| PValue (v : value).

Definition params := list (jsstring * param).

(** [x instanceof Blob || x instanceof File] for the value [x] of a
    property that may be absent.  Where the runtime has no [Blob] no value
    is one, so the [typeof Blob !== 'undefined'] guards do not change the
    result. *)
Definition is_binary (x : option param) : bool :=
  match x with
  | Some (PBinary _) => true
  | _ => false
  end.

(** One entry of a [FormData]. *)
Inductive form_value : Type :=
| FormBinary (b : binary)
| FormText (s : jsstring).

Inductive request_body : Type :=
| BodyText (s : jsstring)
| BodyFormData (entries : list (jsstring * form_value)).

(** The second argument of [fetch]; the abort signal is represented by
    the outcome of the call. *)
Record fetch_init : Type := {
  http_method : jsstring;
  headers : list (jsstring * jsstring);
  body : request_body
}.

(** What [fetch(url, init)] followed by [response.json()] comes to: a
    response whose body parsed or failed to parse, or a rejected call (a
    network failure, or an [AbortError] when the timer aborted it). *)
Inductive fetch_result : Type :=
| Response (json : outcome value)
| Rejected (e : js_error).

Definition transport := jsstring -> fetch_init -> fetch_result.

(** [data[key]] for the body of a response that is neither [null] nor
    [undefined]. *)
Definition property (data : value) (k : jsstring) : value :=
  match data with
  | VObj ps => get k ps
  | _ => VUndefined
  end.

Record TelegramBot : Type := {
  config : TelegramConfig
}.

(** A URL check for closed examples: the strings that begin with [http].
    The theorems hold for every check. *)
Definition begins_with_http (s : jsstring) : bool := starts_with s (js "http").

Section Client.

(** The platform's URL parser ([new URL(s)] returns or throws),
    [JSON.stringify] and the conversion [String(x)] (also the one of
    template literals), and the message of the [TypeError] for a property
    read on [null]. *)
Variable new_URL : jsstring -> bool.
Variable JSON_stringify : value -> jsstring.
Variable to_string : value -> jsstring.
Variable type_error_message : jsstring.

(** The test of [z.string().url()]: the URL parser accepts the string
    without the white space at its ends. *)
Definition is_url (s : jsstring) : bool := new_URL (trim s).

Definition parse : schema -> value -> option value := Zod.parse is_url resolve.

Definition new_TelegramAPIError (code desc : value) : TelegramAPIError :=
  {| errorCode := code;
     description := desc;
     message := js "Telegram API Error " ++ to_string code ++ js ": " ++ to_string desc;
     name := js "TelegramAPIError" |}.

(** [new TelegramBot(config)]. *)
Definition new_TelegramBot (cfg : value) : outcome TelegramBot :=
  match parse TelegramConfigSchema cfg with
  | Some parsed =>
      match as_config parsed with
      | Some c => Returned {| config := c |}
      | None => Threw ZodError
      end
  | None => Threw ZodError
  end.

Definition getApiUrl (bot : TelegramBot) (method : jsstring) : jsstring :=
  baseUrl (config bot) ++ js "/bot" ++ botToken (config bot) ++ js "/" ++ method.

(** The entries the loop of [request] appends to the [FormData]. *)
Fixpoint form_entries (ps : params) : list (jsstring * form_value) :=
  match ps with
  | [] => []
  | (k, p) :: ps' =>
      match p with
      | PValue VUndefined | PValue VNull => form_entries ps'
      | PBinary b => (k, FormBinary b) :: form_entries ps'
      | PValue (VObj _ as v) | PValue (VArr _ as v) =>
          (k, FormText (JSON_stringify v)) :: form_entries ps'
      | PValue v => (k, FormText (to_string v)) :: form_entries ps'
      end
  end.

(** The parameter object as [JSON.stringify] sees it: binary content has
    no enumerable property of its own and is written as an empty object. *)
Definition json_view (ps : params) : value :=
  VObj (List.map
          (fun kp => (fst kp,
                      match snd kp with
                      | PBinary _ => VObj []
                      | PValue v => v
                      end)) ps).

(** The headers and the body [request] hands to [fetch]. *)
Definition request_init (ps : option params) (isMultipart : bool) : fetch_init :=
  match isMultipart, ps with
  | true, Some entries =>
      {| http_method := js "POST";
         headers := [];
         body := BodyFormData (form_entries entries) |}
  | _, _ =>
      {| http_method := js "POST";
         headers := [(js "Content-Type", js "application/json")];
         body := BodyText
                   (JSON_stringify
                      (match ps with
                       | Some entries => json_view entries
                       | None => VObj []
                       end)) |}
  end.

(** The [try] block of [request] after the body is built. *)
Definition unwrap (r : fetch_result) : outcome value :=
  match r with
  | Rejected e => Threw e
  | Response (Threw e) => Threw e
  | Response (Returned data) =>
      match data with
      | VUndefined | VNull => Threw (JsError (js "TypeError") type_error_message)
      | _ =>
          if negb (truthy (property data (js "ok")))
          then Threw (APIError
                        (new_TelegramAPIError
                           (property data (js "error_code"))
                           (property data (js "description"))))
          else Returned (property data (js "result"))
      end
  end.

(** The [catch] block of [request]. *)
Definition rethrow (bot : TelegramBot) (e : js_error) : js_error :=
  match e with
  | APIError _ => e
  | ZodError => e
  | JsError error_name _ =>
      if jsstring_eqb error_name (js "AbortError")
      then JsError (js "Error")
             (js "Request timeout after " ++ to_string (VNum (timeout (config bot))) ++ js "ms")
      else e
  | NotAnError _ =>
      JsError (js "Error") (js "Unknown error occurred during API request")
  end.

Definition request (bot : TelegramBot) (method : jsstring) (ps : option params)
  (isMultipart : bool) (fetch : transport) : outcome value :=
  match unwrap (fetch (getApiUrl bot method) (request_init ps isMultipart)) with
  | Returned result => Returned result
  | Threw e => Threw (rethrow bot e)
  end.

Definition setWebhook (bot : TelegramBot) (ps : params) (fetch : transport) :
  outcome value :=
  let hasFile := is_binary (lookup (js "certificate") ps) in
  request bot (js "setWebhook") (Some ps) hasFile fetch.

Definition sendMessage (bot : TelegramBot) (ps : params) (fetch : transport) :
  outcome value :=
  request bot (js "sendMessage") (Some ps) false fetch.

Definition sendPhoto (bot : TelegramBot) (ps : params) (fetch : transport) :
  outcome value :=
  let isFile := is_binary (lookup (js "photo") ps) in
  request bot (js "sendPhoto") (Some ps) isFile fetch.

Definition updateBotToken (bot : TelegramBot) (newBotToken : jsstring) : TelegramBot :=
  {| config := {| botToken := newBotToken;
                  baseUrl := baseUrl (config bot);
                  timeout := timeout (config bot) |} |}.

Definition getBotTokenMasked (bot : TelegramBot) : jsstring :=
  let token := botToken (config bot) in
  if (length token <? 10)%nat then js "***"
  else slice token 0 (Some 3%Z) ++ js "..." ++ slice token (-3) None.

(** The three remote operations of the client, and the request each of
    them sends: multipart or not as the method decides. *)
Inductive operation : Type :=
| SetWebhook
| SendMessage
| SendPhoto.

Definition call (op : operation) : TelegramBot -> params -> transport -> outcome value :=
  match op with
  | SetWebhook => setWebhook
  | SendMessage => sendMessage
  | SendPhoto => sendPhoto
  end.

(** The request an operation hands to [fetch], read off the call by a
    transport that records it. *)
Definition sent_init (op : operation) (ps : params) : fetch_init :=
  match op with
  | SetWebhook => request_init (Some ps) (is_binary (lookup (js "certificate") ps))
  | SendMessage => request_init (Some ps) false
  | SendPhoto => request_init (Some ps) (is_binary (lookup (js "photo") ps))
  end.

Definition has_binary (ps : params) : bool :=
  existsb (fun kp => is_binary (Some (snd kp))) ps.

Definition is_multipart (i : fetch_init) : bool :=
  match body i with
  | BodyFormData _ => true
  | BodyText _ => false
  end.

(** The method name an operation puts in the URL. *)
Definition method_name (op : operation) : jsstring :=
  match op with
  | SetWebhook => js "setWebhook"
  | SendMessage => js "sendMessage"
  | SendPhoto => js "sendPhoto"
  end.

(** The one parameter an operation tests for binary content; [sendMessage]
    tests none. *)
Definition file_parameter (op : operation) : option jsstring :=
  match op with
  | SetWebhook => Some (js "certificate")
  | SendMessage => None
  | SendPhoto => Some (js "photo")
  end.

Definition file_parameter_is_binary (op : operation) (ps : params) : bool :=
  match file_parameter op with
  | Some k => is_binary (lookup k ps)
  | None => false
  end.

(** The [FormData] entry the specification gives a parameter: binary
    content as it is, an object or array serialized, a scalar as a string,
    nothing for [null] and [undefined]. *)
Definition form_part (p : param) : option form_value :=
  match p with
  | PBinary b => Some (FormBinary b)
  | PValue VUndefined | PValue VNull => None
  | PValue (VObj ps) => Some (FormText (JSON_stringify (VObj ps)))
  | PValue (VArr xs) => Some (FormText (JSON_stringify (VArr xs)))
  | PValue v => Some (FormText (to_string v))
  end.

(** A [callback_data] of 33 letters U+00E9 (two bytes each in UTF-8), and
    a button that carries a given [callback_data]. *)
Definition accented_callback_data : jsstring := repeat 233%N 33.

Definition button_with_callback_data (s : jsstring) : value :=
  VObj [ (js "text", str "Like"); (js "callback_data", VStr s) ].

(** Rows of buttons that [InlineKeyboardButtonSchema] accepts: what an
    [inline_keyboard] field has to hold. *)
Definition valid_button_rows (rows : list value) : Prop :=
  Forall
    (fun row =>
       exists buttons,
         row = VArr buttons /\
         Forall (fun b => is_some (parse InlineKeyboardButtonSchema b) = true) buttons)
    rows.

(** The [selective] field is absent ([undefined]) or a boolean. *)
Definition selective_ok (ps : list (jsstring * value)) : Prop :=
  get (js "selective") ps = VUndefined \/
  exists b, get (js "selective") ps = VBool b.

(** A positive integer, as a value. *)
Definition positive_integer (x : value) : Prop :=
  exists q, x = VNum q /\ is_integer q = true /\ (0 < Qnum q)%Z.

(** The configuration the constructor yields for a token when the base
    address and the timeout are left out. *)
Definition default_config (token : jsstring) : TelegramConfig :=
  {| botToken := token;
     baseUrl := js "https://api.telegram.org";
     timeout := inject_Z 30000 |}.

(** [key in v] for a value that may not be an object. *)
Definition has_property (v : value) (k : jsstring) : bool :=
  match v with
  | VObj ps => has k ps
  | _ => false
  end.

(** The closed set of chat types of the data model. *)
Definition chat_types : list value :=
  [str "private"; str "group"; str "supergroup"; str "channel"].

(** The four fields of an Update that hold a Message. *)
Definition message_fields : list jsstring :=
  [js "message"; js "edited_message"; js "channel_post"; js "edited_channel_post"].

(** A chain of replies: a minimal message that replies to a minimal
    message, [n] times over. *)
Fixpoint reply_chain (n : nat) : value :=
  VObj
    ([ (js "message_id", num 19787);
       (js "date", num 1762922251);
       (js "chat", VObj [ (js "id", num 496499134); (js "type", str "private") ]) ]
     ++ match n with
        | O => []
        | S n' => [ (js "reply_to_message", reply_chain n') ]
        end).

(** ** Payloads and conversions for closed examples *)

(** The update of the first test of [test/index.test.ts]. *)
Definition text_update : value :=
  VObj
    [ (js "update_id", num 50563505);
      (js "message",
        VObj
          [ (js "message_id", num 19787);
            (js "from",
              VObj
                [ (js "id", num 496499134);
                  (js "is_bot", VBool false);
                  (js "first_name", str "Carmelo");
                  (js "last_name", str "Campos");
                  (js "username", str "CamposCarmelo");
                  (js "language_code", str "es");
                  (js "is_premium", VBool true) ]);
            (js "chat",
              VObj
                [ (js "id", num 496499134);
                  (js "first_name", str "Carmelo");
                  (js "last_name", str "Campos");
                  (js "username", str "CamposCarmelo");
                  (js "type", str "private") ]);
            (js "date", num 1762922251);
            (js "text", str "Este es un texto de ejemplo") ]) ].

(** The same update with fields no schema declares: one at the top, one
    inside the message, one inside the sender. *)
Definition text_update_with_unknown_keys : value :=
  VObj
    [ (js "update_id", num 50563505);
      (js "delivery_attempt", num 2);
      (js "message",
        VObj
          [ (js "message_id", num 19787);
            (js "from",
              VObj
                [ (js "id", num 496499134);
                  (js "is_bot", VBool false);
                  (js "first_name", str "Carmelo");
                  (js "last_name", str "Campos");
                  (js "username", str "CamposCarmelo");
                  (js "language_code", str "es");
                  (js "is_premium", VBool true);
                  (js "has_main_web_app", VBool false) ]);
            (js "chat",
              VObj
                [ (js "id", num 496499134);
                  (js "first_name", str "Carmelo");
                  (js "last_name", str "Campos");
                  (js "username", str "CamposCarmelo");
                  (js "type", str "private") ]);
            (js "date", num 1762922251);
            (js "text", str "Este es un texto de ejemplo");
            (js "sticker", VObj [ (js "emoji", str ":)") ]) ]) ].

(** What [UpdateSchema] makes of both: the declared fields, in the order
    of the schemas. *)
Definition parsed_text_update : value :=
  VObj
    [ (js "update_id", num 50563505);
      (js "message",
        VObj
          [ (js "message_id", num 19787);
            (js "from",
              VObj
                [ (js "id", num 496499134);
                  (js "is_bot", VBool false);
                  (js "first_name", str "Carmelo");
                  (js "last_name", str "Campos");
                  (js "username", str "CamposCarmelo");
                  (js "language_code", str "es");
                  (js "is_premium", VBool true) ]);
            (js "date", num 1762922251);
            (js "chat",
              VObj
                [ (js "id", num 496499134);
                  (js "type", str "private");
                  (js "username", str "CamposCarmelo");
                  (js "first_name", str "Carmelo");
                  (js "last_name", str "Campos") ]);
            (js "text", str "Este es un texto de ejemplo") ]) ].

(** A chat of a type outside the closed set. *)
Definition secret_chat : value :=
  VObj [ (js "id", num 496499134); (js "type", str "secret") ].

(** The properties of [reply_chain 1]. *)
Definition reply_fields : list (jsstring * value) :=
  [ (js "message_id", num 19787);
    (js "date", num 1762922251);
    (js "chat", VObj [ (js "id", num 496499134); (js "type", str "private") ]);
    (js "reply_to_message", reply_chain 0) ].

(** Reply markups: an inline keyboard of one button, a keyboard removal,
    and a payload that is both a keyboard removal and an (empty) inline
    keyboard. *)
Definition like_rows : list value :=
  [ VArr [ button_with_callback_data (js "like") ] ].

Definition inline_payload : list (jsstring * value) :=
  [ (js "inline_keyboard", VArr like_rows) ].

Definition remove_payload : list (jsstring * value) :=
  [ (js "remove_keyboard", VBool true) ].

Definition remove_and_inline_payload : list (jsstring * value) :=
  [ (js "remove_keyboard", VBool true); (js "inline_keyboard", VArr []) ].

(** Payloads that several of the later candidates accept: a keyboard
    removal and a forced reply that is first a reply keyboard, and a
    forced reply that is first a keyboard removal. *)
Definition remove_and_reply_payload : list (jsstring * value) :=
  [ (js "force_reply", VBool true); (js "remove_keyboard", VBool true);
    (js "keyboard", VArr [ VArr [ VObj [ (js "text", str "Yes") ] ] ]) ].

Definition force_and_remove_payload : list (jsstring * value) :=
  [ (js "force_reply", VBool true); (js "remove_keyboard", VBool true) ].

(** The user and the photo size of the test suite, and a smaller size. *)
Definition john : list (jsstring * value) :=
  [ (js "id", num 123456);
    (js "is_bot", VBool false);
    (js "first_name", str "John") ].

Definition photo_size : value :=
  VObj
    [ (js "file_id", str "ABC123");
      (js "file_unique_id", str "XYZ789");
      (js "width", num 1280);
      (js "height", num 720);
      (js "file_size", num 50000) ].

Definition thumbnail : value :=
  VObj
    [ (js "file_id", str "ABC122");
      (js "file_unique_id", str "XYZ788");
      (js "width", num 320);
      (js "height", num 180) ].

(** A message with a keyboard of one button that opens a Web App. *)
Definition message_with_web_app (address : string) : value :=
  VObj
    [ (js "message_id", num 19787);
      (js "date", num 1762922251);
      (js "chat", VObj [ (js "id", num 496499134); (js "type", str "private") ]);
      (js "reply_markup",
        VObj
          [ (js "inline_keyboard",
              VArr [ VArr [ VObj [ (js "text", str "Open");
                                   (js "web_app",
                                     VObj [ (js "url", str address) ]) ] ] ]) ]) ].

(** An update that uses most of the data model: a message from a user
    with a text, an entity that mentions a user, a photo in two sizes, a
    location, the message it replies to and an inline keyboard, and a
    callback query. *)
Definition rich_update : value :=
  VObj
    [ (js "update_id", num 50563505);
      (js "message",
        VObj
          [ (js "message_id", num 19788);
            (js "from", VObj john);
            (js "date", num 1762922251);
            (js "chat", VObj [ (js "id", num 496499134); (js "type", str "private") ]);
            (js "text", str "Hello @username");
            (js "entities",
              VArr [ VObj [ (js "type", str "text_mention");
                            (js "offset", num 6);
                            (js "length", num 9);
                            (js "user", VObj john) ] ]);
            (js "photo", VArr [ thumbnail; photo_size ]);
            (js "location",
              VObj [ (js "longitude", VNum (235 # 100));
                     (js "latitude", VNum (4885 # 100)) ]);
            (js "reply_to_message", reply_chain 0);
            (js "reply_markup",
              VObj
                [ (js "inline_keyboard",
                    VArr [ VArr [ button_with_callback_data (js "like");
                                  VObj [ (js "text", str "Open");
                                         (js "web_app",
                                           VObj [ (js "url",
                                                    str "https://example.com/app") ]) ] ] ]) ]) ]);
      (js "callback_query",
        VObj
          [ (js "id", str "query123");
            (js "from", VObj john);
            (js "chat_instance", str "chat123");
            (js "data", str "button_clicked") ]) ].

(** An update whose button opens an address written with a space after
    it, what [UpdateSchema] makes of it, and an update whose identifier is
    the integer [2^53]. *)
Definition spaced_address_update : value :=
  VObj
    [ (js "update_id", num 50563505);
      (js "message", message_with_web_app "https://example.com/app ") ].

Definition parsed_spaced_address_update : value :=
  VObj
    [ (js "update_id", num 50563505);
      (js "message", message_with_web_app "https://example.com/app") ].

Definition large_id_update : value :=
  VObj [ (js "update_id", num 9007199254740992) ].

(** [xs[i]] and the address of the Web App of the first button of the
    keyboard of the message of an update. *)
Definition item (v : value) (i : nat) : value :=
  match v with
  | VArr xs => nth i xs VUndefined
  | _ => VUndefined
  end.

Definition web_app_address (update : value) : value :=
  property
    (property
       (item
          (item
             (property (property (property update (js "message")) (js "reply_markup"))
                (js "inline_keyboard"))
             0)
          0)
       (js "web_app"))
    (js "url").

(** The token of the specification. *)
Definition spec_token : string := "123456789:ABCdefGHIjklMNOpqrsTUVwxyz".

(** A text message. *)
Definition hello_message : params :=
  [ (js "chat_id", PValue (num 123456789));
    (js "text", PValue (str "Hello, World!")) ].

(** The decimal digits of a natural number. *)
Fixpoint digits (fuel : nat) (n : N) (acc : jsstring) : jsstring :=
  match fuel with
  | O => acc
  | S fuel' =>
      let acc' := (48 + n mod 10)%N :: acc in
      if (n / 10 =? 0)%N then acc' else digits fuel' (n / 10)%N acc'
  end.

Definition decimal (z : Z) : jsstring :=
  (if (z <? 0)%Z then js "-" else []) ++
  digits (S (N.to_nat (N.log2 (Z.to_N (Z.abs z))))) (Z.to_N (Z.abs z)) [].

(** [String(x)] on the scalars the examples use: exact on strings,
    booleans, [null], [undefined] and integers. *)
Definition example_to_string (v : value) : jsstring :=
  match v with
  | VUndefined => js "undefined"
  | VNull => js "null"
  | VBool true => js "true"
  | VBool false => js "false"
  | VNum q => decimal (Qnum q / Zpos (Qden q))
  | VStr s => s
  | VArr _ | VObj _ => js "[object Object]"
  end.

Fixpoint join (sep : jsstring) (parts : list jsstring) : jsstring :=
  match parts with
  | [] => []
  | [p] => p
  | p :: rest => p ++ sep ++ join sep rest
  end.

(** The double quote. *)
Definition quote : jsstring := [34%N].

(** [JSON.stringify(x)] on the values the examples use: integers, and
    strings that need no escape. *)
Fixpoint example_stringify (v : value) : jsstring :=
  match v with
  | VUndefined | VNull => js "null"
  | VBool true => js "true"
  | VBool false => js "false"
  | VNum q => decimal (Qnum q / Zpos (Qden q))
  | VStr s => quote ++ s ++ quote
  | VArr xs =>
      js "[" ++
      join (js ",")
        ((fix each (l : list value) : list jsstring :=
            match l with
            | [] => []
            | x :: l' => example_stringify x :: each l'
            end) xs) ++
      js "]"
  | VObj ps =>
      js "{" ++
      join (js ",")
        ((fix each (l : list (jsstring * value)) : list jsstring :=
            match l with
            | [] => []
            | (k, x) :: l' =>
                if is_undefined x then each l'
                else (quote ++ k ++ quote ++ js ":" ++ example_stringify x) :: each l'
            end) ps) ++
      js "}"
  end.

(** A photo upload: the chat, the file and a caption. *)
Definition photo_upload : params :=
  [ (js "chat_id", PValue (num 123456789));
    (js "photo", PBinary (File (js "photo.jpg") [255; 216; 255]%N));
    (js "caption", PValue (str "Uploaded photo"));
    (js "reply_markup",
      PValue (VObj [ (js "inline_keyboard",
                       VArr [ VArr [ VObj [ (js "text", str "Like");
                                            (js "callback_data", str "like") ] ] ]) ])) ].

(** A text message whose parameter set also holds binary content. *)
Definition message_with_attachment : params :=
  [ (js "chat_id", PValue (num 123456789));
    (js "text", PValue (str "Hello, World!"));
    (js "attachment", PBinary (Blob [37; 80; 68; 70]%N)) ].

(** The error envelope of the specification. *)
Definition bad_request : list (jsstring * value) :=
  [ (js "ok", VBool false);
    (js "error_code", num 400);
    (js "description", str "Bad Request") ].

(** The envelope of a successful setWebhook. *)
Definition webhook_was_set : list (jsstring * value) :=
  [ (js "ok", VBool true);
    (js "result", VBool true);
    (js "description", str "Webhook was set") ].

(** A transport that answers every request with a given envelope. *)
Definition mock_transport (envelope : list (jsstring * value)) : transport :=
  fun _ _ => Response (Returned (VObj envelope)).

(** The client with the default base address and timeout. *)
Definition client_of (token : string) : TelegramBot :=
  {| config := {| botToken := js token;
                  baseUrl := js "https://api.telegram.org";
                  timeout := inject_Z 30000 |} |}.

(* ===================================================================== *)
(** * Facts about the interpreter *)
(* ===================================================================== *)

Set Default Proof Using "Type".

Section ZodFacts.
Variable res : string -> shape.

Lemma jsstring_eqb_eq (a b : jsstring) : jsstring_eqb a b = true <-> a = b.
Proof.
  revert b; induction a as [|x a IH]; intros [|y b]; simpl; split; intro H;
    try reflexivity; try discriminate.
  - apply andb_true_iff in H as [Hx Hab].
    apply N.eqb_eq in Hx. apply IH in Hab. now subst.
  - injection H as -> ->. rewrite N.eqb_refl. simpl. now apply IH.
Qed.

Lemma jsstring_eqb_refl (a : jsstring) : jsstring_eqb a a = true.
Proof. now apply jsstring_eqb_eq. Qed.

Lemma jsstring_eqb_neq (a b : jsstring) : jsstring_eqb a b = false <-> a <> b.
Proof.
  split.
  - intros H ->. rewrite jsstring_eqb_refl in H. discriminate.
  - intro H. destruct (jsstring_eqb a b) eqn:E; [|reflexivity].
    apply jsstring_eqb_eq in E. contradiction.
Qed.

Lemma lookup_props_of (k : jsstring) (ps : list (jsstring * value)) :
  lookup k (props_of is_url res ps) = option_map (run is_url res) (lookup k ps).
Proof.
  induction ps as [|[k' x] ps IH]; simpl; [reflexivity|].
  destruct (jsstring_eqb k k'); [reflexivity|exact IH].
Qed.

Lemma object_fields_ext (p p' : jsstring -> bool)
  (f f' : jsstring -> schema -> option value) (sh : shape) :
  Forall (fun e => p (fst e) = p' (fst e) /\ f (fst e) (snd e) = f' (fst e) (snd e)) sh ->
  object_fields p f sh = object_fields p' f' sh.
Proof.
  induction 1 as [|[k sk] sh [Hp Hf] _ IH]; simpl in *; [reflexivity|].
  now rewrite Hp, Hf, IH.
Qed.

Lemma run_object_eq (ps : list (jsstring * value)) (sh : shape) :
  run is_url res (VObj ps) (SObject sh) =
  option_map VObj (object_fields (fun k => has k ps) (field is_url res ps) sh).
Proof.
  change (run is_url res (VObj ps) (SObject sh)) with
    (option_map VObj
       (object_fields (fun k => has k (props_of is_url res ps))
          (fun k sk =>
             match lookup k (props_of is_url res ps) with
             | Some validate => validate sk
             | None => run_undefined sk
             end) sh)).
  f_equal. apply object_fields_ext. apply Forall_forall. intros [k sk] _; simpl.
  unfold has, field. rewrite lookup_props_of.
  destruct (lookup k ps); simpl; auto.
Qed.

Lemma run_lazy_eq (v : value) (n : string) :
  run is_url res v (SLazy n) = run is_url res v (SObject (res n)).
Proof. destruct v; reflexivity. Qed.

Lemma run_array_eq (xs : list value) (e : schema) :
  run is_url res (VArr xs) (SArray e) =
  option_map VArr (sequence (List.map (fun x => run is_url res x e) xs)).
Proof.
  change (run is_url res (VArr xs) (SArray e)) with
    (option_map VArr
       (sequence
          (List.map (fun validate : schema -> option value => validate e)
             ((fix each (l : list value) :=
                 match l with
                 | [] => []
                 | x :: l' => run is_url res x :: each l'
                 end) xs)))).
  do 2 f_equal. induction xs as [|x xs IH]; simpl; [reflexivity|]. now rewrite IH.
Qed.

Lemma run_optional_eq (v : value) (s : schema) :
  run is_url res v (SOptional s) = if is_undefined v then Some VUndefined else run is_url res v s.
Proof. destruct v; reflexivity. Qed.


Lemma run_undefined_eq (s : schema) : run is_url res VUndefined s = run_undefined s.
Proof. reflexivity. Qed.

Lemma run_union_cons (v : value) (o : schema) (os : list schema) :
  run is_url res v (SUnion (o :: os)) =
  match run is_url res v o with
  | Some r => Some r
  | None => run is_url res v (SUnion os)
  end.
Proof. destruct v; reflexivity. Qed.

Lemma run_union_nil (v : value) : run is_url res v (SUnion []) = None.
Proof. destruct v; reflexivity. Qed.

Lemma lookup_In (A : Type) (k : jsstring) (ps : list (jsstring * A)) (x : A) :
  lookup k ps = Some x -> In (k, x) ps.
Proof.
  induction ps as [|[k' y] ps IH]; simpl; [discriminate|].
  destruct (jsstring_eqb k k') eqn:E.
  - intros [= ->]. apply jsstring_eqb_eq in E. subst. now left.
  - intro H. right. now apply IH.
Qed.

Lemma object_fields_is_some (p : jsstring -> bool)
  (f : jsstring -> schema -> option value) (sh : shape) :
  is_some (object_fields p f sh) = forallb (fun e => is_some (f (fst e) (snd e))) sh.
Proof.
  induction sh as [|[k sk] sh IH]; simpl; [reflexivity|].
  rewrite <- IH. destruct (f k sk); [|reflexivity].
  destruct (object_fields p f sh); reflexivity.
Qed.

Lemma object_fields_In (p : jsstring -> bool)
  (f : jsstring -> schema -> option value) (sh : shape)
  (out : list (jsstring * value)) :
  object_fields p f sh = Some out ->
  forall k r, In (k, r) out -> exists sk, In (k, sk) sh /\ f k sk = Some r.
Proof.
  revert out; induction sh as [|[k0 sk0] sh IH]; simpl; intros out H k r Hin.
  - injection H as <-. destruct Hin.
  - destruct (f k0 sk0) as [r0|] eqn:E0; [|discriminate].
    destruct (object_fields p f sh) as [out'|]; [|discriminate].
    injection H as <-.
    assert (Hcase : (k, r) = (k0, r0) \/ In (k, r) out').
    { destruct (p k0 || negb (is_undefined r0)); [destruct Hin as [<-|]|]; auto. }
    destruct Hcase as [[= -> ->]|Hin'].
    + exists sk0. auto.
    + destruct (IH out' eq_refl k r Hin') as (sk & ? & ?). exists sk. auto.
Qed.

Lemma existsb_key_In (A : Type) (k : jsstring) (sh : list (jsstring * A)) :
  existsb (jsstring_eqb k) (List.map fst sh) = false ->
  forall x, ~ In (k, x) sh.
Proof.
  induction sh as [|[k' y] sh IH]; simpl; intros H x; [intros []|].
  apply orb_false_iff in H as [Hk Hrest].
  intros [[= -> ->]|Hin].
  - now rewrite jsstring_eqb_refl in Hk.
  - exact (IH Hrest x Hin).
Qed.

Lemma object_fields_lookup_other (p : jsstring -> bool)
  (f : jsstring -> schema -> option value) (sh : shape)
  (out : list (jsstring * value)) (k : jsstring) :
  object_fields p f sh = Some out ->
  existsb (jsstring_eqb k) (List.map fst sh) = false ->
  lookup k out = None.
Proof.
  intros H Hk. destruct (lookup k out) as [r|] eqn:E; [|reflexivity].
  apply lookup_In in E.
  destruct (object_fields_In _ _ _ H _ _ E) as (sk & Hin & _).
  now apply existsb_key_In with (x := sk) in Hk.
Qed.

Lemma object_fields_lookup (p : jsstring -> bool)
  (f : jsstring -> schema -> option value) (sh : shape)
  (out : list (jsstring * value)) :
  object_fields p f sh = Some out ->
  unique (List.map fst sh) = true ->
  forall k sk, In (k, sk) sh ->
  exists r, f k sk = Some r /\
            lookup k out = if p k || negb (is_undefined r) then Some r else None.
Proof.
  revert out; induction sh as [|[k0 sk0] sh IH]; simpl; intros out H Hu k sk Hin;
    [destruct Hin|].
  apply andb_true_iff in Hu as [Hk0 Hu]. apply negb_true_iff in Hk0.
  destruct (f k0 sk0) as [r0|] eqn:E0; [|discriminate].
  destruct (object_fields p f sh) as [out'|] eqn:E'; [|discriminate].
  injection H as <-.
  destruct Hin as [[= -> ->]|Hin].
  - exists r0. split; [exact E0|].
    destruct (p k || negb (is_undefined r0)); simpl.
    + now rewrite jsstring_eqb_refl.
    + eapply object_fields_lookup_other; eauto.
  - destruct (IH out' eq_refl Hu k sk Hin) as (r & Hr & Hl).
    exists r. split; [exact Hr|].
    assert (Hne : jsstring_eqb k k0 = false).
    { apply jsstring_eqb_neq. intros ->.
      now apply existsb_key_In with (x := sk) in Hk0. }
    destruct (p k0 || negb (is_undefined r0)); simpl; [rewrite Hne|]; exact Hl.
Qed.


(** ** Agreement on the declared fields gives the same result *)

Lemma agree_undefined (s : schema) (a b : value) :
  agree res s a b -> is_undefined a = is_undefined b.
Proof.
  induction s; intro H; inversion H; subst; auto.
Qed.

Lemma has_lookup (A : Type) (k : jsstring) (ps : list (jsstring * A)) :
  has k ps = is_some (lookup k ps).
Proof. unfold has. now destruct (lookup k ps). Qed.

Lemma fields_agree (sh : shape) (ps qs : list (jsstring * value)) :
  Forall (fun kv => forall s a, agree res s a (snd kv) -> run is_url res (snd kv) s = run is_url res a s) qs ->
  Forall (fun f => opt_rel (agree res (snd f)) (lookup (fst f) ps) (lookup (fst f) qs)) sh ->
  object_fields (fun k => has k qs) (field is_url res qs) sh =
  object_fields (fun k => has k ps) (field is_url res ps) sh.
Proof.
  intros IH Hsh. apply object_fields_ext.
  apply Forall_forall. intros [k sk] Hin.
  rewrite Forall_forall in Hsh. specialize (Hsh _ Hin). simpl in *.
  unfold field. rewrite !has_lookup.
  inversion Hsh as [Hp Hq|x y Hxy Hp Hq]; simpl; [auto|].
  split; [reflexivity|].
  symmetry in Hq. apply lookup_In in Hq.
  rewrite Forall_forall in IH. exact (IH _ Hq sk x Hxy).
Qed.

Lemma items_agree (s : schema) (xs ys : list value) :
  Forall (fun b => forall s a, agree res s a b -> run is_url res b s = run is_url res a s) ys ->
  Forall2 (agree res s) xs ys ->
  List.map (fun y => run is_url res y s) ys = List.map (fun x => run is_url res x s) xs.
Proof.
  intros IH H. induction H as [|x y xs ys Hxy _ IHf]; [reflexivity|].
  inversion IH; subst. simpl. f_equal; auto.
Qed.

Lemma run_agree (b : value) :
  forall s a, agree res s a b -> run is_url res b s = run is_url res a s.
Proof.
  induction b as [| |c|q|x|ys IH|qs IH] using value_deep_ind;
    intro s; induction s; intros a H; inversion H; subst; try reflexivity;
    try (rewrite !run_optional_eq;
         match goal with
         | Hi : agree _ _ _ _ |- _ => rewrite (agree_undefined Hi); simpl; auto
         end).
  - (* arrays *)
    rewrite !run_array_eq. do 2 f_equal. now apply items_agree.
  - (* objects *)
    rewrite !run_object_eq. f_equal. now apply fields_agree.
  - (* lazy references *)
    rewrite !run_lazy_eq, !run_object_eq. f_equal. now apply fields_agree.
Qed.

(** ** The result has the declared fields only *)

Lemma run_undefined_only_declared (s : schema) (r : value) :
  run_undefined s = Some r -> only_declared res s r.
Proof.
  induction s as [| | | | | | | | | |os IH|] using schema_deep_ind;
    try discriminate.
  - intros [= <-]. now apply only_leaf.
  - intros [= <-]. apply only_default_value.
  - intro H. apply only_union.
    induction IH as [|o os Ho _ IHos]; [discriminate|].
    simpl in H. destruct (run_undefined o) as [r'|] eqn:E.
    + injection H as ->. left. now apply Ho.
    + right. now apply IHos.
Qed.

Lemma sequence_Forall2 (A : Type) (l : list (option A)) (xs : list A) :
  sequence l = Some xs -> Forall2 (fun o x => o = Some x) l xs.
Proof.
  revert xs; induction l as [|[a|] l IH]; simpl; intros xs H; try discriminate.
  - injection H as <-. constructor.
  - destruct (sequence l) as [ys|]; [|discriminate]. injection H as <-.
    constructor; auto.
Qed.

Lemma option_map_Some (A B : Type) (f : A -> B) (o : option A) (b : B) :
  option_map f o = Some b -> exists a, o = Some a /\ b = f a.
Proof. destruct o; simpl; [intros [= <-]; eauto|discriminate]. Qed.


Lemma run_default_eq (v : value) (s : schema) (d : value) :
  run is_url res v (SDefault s d) =
  if is_undefined v then Some d
  else match run is_url res v s with
       | Some VUndefined => Some d
       | r => r
       end.
Proof. destruct v; reflexivity. Qed.

Lemma run_record_eq (ps : list (jsstring * value)) (cs : list string_check)
  (val : schema) :
  run is_url res (VObj ps) (SRecord cs val) =
  option_map VObj
    (sequence
       (List.map
          (fun kv : jsstring * value =>
             match check_strings is_url (fst kv) cs with
             | Some key => option_map (pair key) (run is_url res (snd kv) val)
             | None => None
             end) ps)).
Proof.
  change (run is_url res (VObj ps) (SRecord cs val)) with
    (option_map VObj
       (sequence
          (List.map
             (fun kp : jsstring * (schema -> option value) =>
                match check_strings is_url (fst kp) cs with
                | Some key => option_map (pair key) (snd kp val)
                | None => None
                end)
             (props_of is_url res ps)))).
  do 2 f_equal. induction ps as [|[k x] ps IH]; simpl; [reflexivity|].
  now rewrite IH.
Qed.

Lemma union_only_declared (v : value) (os : list schema) (r : value) :
  Forall (fun o => forall r, run is_url res v o = Some r -> only_declared res o r) os ->
  run is_url res v (SUnion os) = Some r -> only_declared res (SUnion os) r.
Proof.
  intros IH H. apply only_union.
  induction IH as [|o os Ho _ IHos].
  - now rewrite run_union_nil in H.
  - rewrite run_union_cons in H. destruct (run is_url res v o) as [r'|] eqn:E.
    + injection H as ->. left. now apply Ho.
    + right. now apply IHos.
Qed.

Lemma fields_only_declared (sh : shape) (ps out : list (jsstring * value)) :
  Forall (fun kv => forall s r, run is_url res (snd kv) s = Some r -> only_declared res s r) ps ->
  object_fields (fun k => has k ps) (field is_url res ps) sh = Some out ->
  Forall (fun kv => exists sk, In (fst kv, sk) sh /\ only_declared res sk (snd kv)) out.
Proof.
  intros IH H. apply Forall_forall. intros [k r] Hin.
  destruct (object_fields_In _ _ _ H _ _ Hin) as (sk & Hsk & Hf).
  exists sk. split; [exact Hsk|]. simpl.
  unfold field in Hf. destruct (lookup k ps) as [x|] eqn:E.
  - apply lookup_In in E. rewrite Forall_forall in IH. exact (IH _ E sk r Hf).
  - now apply run_undefined_only_declared.
Qed.

Ltac wrapper_cases IHinner H :=
  first
    [ rewrite run_optional_eq in H;
      destruct (is_undefined _);
      [ injection H as <-; now apply only_leaf
      | now apply only_optional, IHinner ]
    | rewrite run_default_eq in H;
      destruct (is_undefined _);
      [ injection H as <-; apply only_default_value
      | match type of H with
        | context [run is_url res ?v ?s] =>
            let E := fresh "E" in
            destruct (run is_url res v s) as [[]|] eqn:E; try discriminate;
            try (injection H as <-; apply only_default_value);
            injection H as <-; apply only_default, IHinner; first [exact E | reflexivity]
        end ] ].

Ltac scalar_cases H :=
  simpl in H;
  first
    [ apply option_map_Some in H as (? & _ & ->); now apply only_leaf
    | repeat match type of H with
             | context [if ?c then _ else _] => destruct c
             end;
      first [ discriminate | injection H as <-; now apply only_leaf ] ].

Lemma run_only_declared (v : value) :
  forall s r, run is_url res v s = Some r -> only_declared res s r.
Proof.
  induction v as [| |c|q|x|ys IH|qs IH] using value_deep_ind; intro s;
    induction s as [cs|cs| |b|opts|e IHe|sh IHsh|cs val IHval|inner IHinner
                   |inner d IHinner|opts IHopts|n] using schema_deep_ind;
    intros r H;
    try (eapply union_only_declared; eassumption);
    try (wrapper_cases IHinner H; fail);
    try (scalar_cases H; fail).
  - (* an array *)
    rewrite run_array_eq in H.
    apply option_map_Some in H as (rs & Hrs & ->).
    apply only_array. apply sequence_Forall2 in Hrs. clear IHe.
    revert rs Hrs. induction IH as [|y ys Hy _ IHys]; intros rs Hrs;
      inversion Hrs; subst; constructor; eauto.
  - (* an object against an object schema *)
    rewrite run_object_eq in H. apply option_map_Some in H as (out & Hout & ->).
    apply only_object. eapply fields_only_declared; eauto.
  - (* an object against a record *)
    rewrite run_record_eq in H. apply option_map_Some in H as (out & Hout & ->).
    apply only_record. apply sequence_Forall2 in Hout. clear IHval.
    revert out Hout. induction IH as [|[k x] qs Hx _ IHqs]; intros out Hout;
      inversion Hout as [|o r os rs Ho Hos]; subst; constructor; eauto.
    simpl in *. destruct (check_strings is_url k cs); [|discriminate].
    apply option_map_Some in Ho as (r' & Hr' & ->). simpl. eauto.
  - (* an object against a lazy reference *)
    rewrite run_lazy_eq, run_object_eq in H.
    apply option_map_Some in H as (out & Hout & ->).
    apply only_lazy. eapply fields_only_declared; eauto.
Qed.


(** ** Conforming payloads are accepted, and the result agrees with them *)

Lemma unique_keys_object (sh : shape) :
  unique_keys (SObject sh) = true ->
  unique (List.map fst sh) = true /\ Forall (fun f => unique_keys (snd f) = true) sh.
Proof.
  simpl. intro H. apply andb_true_iff in H as [Hu Hall]. split; [exact Hu|].
  induction sh as [|f sh IH]; [constructor|].
  simpl in Hu. apply andb_true_iff in Hu as [_ Hu].
  apply andb_true_iff in Hall as [Hf Hall]. constructor; auto.
Qed.

Lemma forallb_Forall_true (A : Type) (p : A -> bool) (l : list A) :
  Forall (fun a => p a = true) l -> forallb p l = true.
Proof. induction 1; simpl; [reflexivity|]. now rewrite H, IHForall. Qed.

Lemma existsb_eqb_In (x : jsstring) (l : list jsstring) :
  existsb (jsstring_eqb x) l = true <-> In x l.
Proof.
  rewrite existsb_exists. split.
  - intros (y & Hy & E). apply jsstring_eqb_eq in E. now subst.
  - intro H. exists x. split; [exact H|apply jsstring_eqb_refl].
Qed.

End ZodFacts.

(* ===================================================================== *)
(** * The schemas of the repository *)
(* ===================================================================== *)

Lemma parse_run (s : schema) (v : value) : parse s v = run is_url resolve v s.
Proof. reflexivity. Qed.

Lemma resolve_unique (n : string) : unique_keys (SObject (resolve n)) = true.
Proof.
  unfold resolve.
  destruct (String.eqb n "UserSchema"); [vm_compute; reflexivity|].
  destruct (String.eqb n "MessageSchema"); vm_compute; reflexivity.
Qed.

Lemma run_object_field_invalid (res : string -> shape)
  (ps : list (jsstring * value)) (sh : shape) (k : jsstring) (sk : schema) :
  lookup k sh = Some sk ->
  field is_url res ps k sk = None ->
  run is_url res (VObj ps) (SObject sh) = None.
Proof.
  intros Hk Hf. rewrite run_object_eq.
  destruct (object_fields _ _ sh) as [out|] eqn:E; [|reflexivity].
  exfalso. apply lookup_In in Hk.
  assert (Hs : is_some (object_fields (fun k => has k ps) (field is_url res ps) sh) = true)
    by now rewrite E.
  rewrite object_fields_is_some, forallb_forall in Hs.
  specialize (Hs _ Hk). simpl in Hs. now rewrite Hf in Hs.
Qed.

Lemma chat_type_In (x : jsstring) :
  existsb (jsstring_eqb x) (List.map js ["private"; "group"; "supergroup"; "channel"]) = true ->
  In (VStr x) chat_types.
Proof.
  intro H. apply existsb_eqb_In in H. unfold chat_types, str.
  simpl in H. simpl.
  destruct H as [<-|[<-|[<-|[<-|[]]]]]; auto.
Qed.

Lemma chat_rejected (c : value) :
  ~ In (property c (js "type")) chat_types -> parse ChatSchema c = None.
Proof.
  intro H. destruct c as [| | | | | |ps]; try reflexivity.
  apply run_object_field_invalid
    with (k := js "type") (sk := z_enum ["private"; "group"; "supergroup"; "channel"]);
    [reflexivity|].
  unfold field. simpl in H. unfold get in H.
  destruct (lookup (js "type") ps) as [x|]; [|reflexivity].
  destruct x; try reflexivity. simpl.
  match goal with
  | |- (if ?c then _ else _) = None => destruct c eqn:E; [|reflexivity]
  end.
  exfalso. apply H. apply chat_type_In. exact E.
Qed.

Lemma required_field_rejected (sh : shape) (ps : list (jsstring * value))
  (k : jsstring) (sk : schema) :
  lookup k sh = Some sk ->
  run is_url resolve (get k ps) sk = None ->
  run is_url resolve (VObj ps) (SObject sh) = None.
Proof.
  intros Hk Hv. apply run_object_field_invalid with (k := k) (sk := sk); [exact Hk|].
  unfold field, get in *. destruct (lookup k ps); exact Hv.
Qed.

Lemma optional_field_rejected (sh : shape) (ps : list (jsstring * value))
  (k : jsstring) (sk : schema) :
  lookup k sh = Some (SOptional sk) ->
  get k ps <> VUndefined ->
  run is_url resolve (get k ps) sk = None ->
  run is_url resolve (VObj ps) (SObject sh) = None.
Proof.
  intros Hk Hd Hv. apply required_field_rejected with (k := k) (sk := SOptional sk);
    [exact Hk|].
  rewrite run_optional_eq. destruct (get k ps); try exact Hv. congruence.
Qed.

Lemma message_rejected (ps : list (jsstring * value)) :
  parse ChatSchema (get (js "chat") ps) = None ->
  parse MessageSchema (VObj ps) = None.
Proof.
  intro H. apply required_field_rejected with (k := js "chat") (sk := ChatSchema);
    [reflexivity|exact H].
Qed.

(** C9: a chat whose [type] is outside private, group, supergroup and
    channel is rejected by [ChatSchema]; so is every Message with such a
    chat, and every Update that carries such a Message in one of its four
    message fields or as the message of its callback query. *)
Theorem chat_type_outside_set_rejected (c : value) :
  ~ In (property c (js "type")) chat_types ->
  parse ChatSchema c = None /\
  (forall m, get (js "chat") m = c -> parse MessageSchema (VObj m) = None) /\
  (forall u m k, In k message_fields -> get k u = VObj m -> get (js "chat") m = c ->
     parse UpdateSchema (VObj u) = None) /\
  (forall u q m, get (js "callback_query") u = VObj q -> get (js "message") q = VObj m ->
     get (js "chat") m = c -> parse UpdateSchema (VObj u) = None).
Proof.
  intro H. pose proof (chat_rejected c H) as Hchat.
  assert (Hmsg : forall m, get (js "chat") m = c -> parse MessageSchema (VObj m) = None).
  { intros m <-. now apply message_rejected. }
  repeat split; [exact Hchat|exact Hmsg| |].
  - intros u m k Hk Hu Hc.
    assert (Hm : run is_url resolve (get k u) MessageSchema = None)
      by (rewrite Hu; now apply Hmsg).
    assert (Hd : get k u <> VUndefined) by (rewrite Hu; discriminate).
    simpl in Hk.
    destruct Hk as [<-|[<-|[<-|[<-|[]]]]];
      eapply optional_field_rejected; try exact Hm; try exact Hd; reflexivity.
  - intros u q m Hu Hq Hc.
    apply optional_field_rejected with (k := js "callback_query") (sk := CallbackQuerySchema);
      [reflexivity|rewrite Hu; discriminate|].
    rewrite Hu.
    apply optional_field_rejected with (k := js "message") (sk := MessageSchema);
      [reflexivity|rewrite Hq; discriminate|].
    rewrite Hq. now apply Hmsg.
Qed.

(** ** The button schema and [callback_data] *)

Lemma utf8_length_ge (s : jsstring) : (length s <= utf8_length s)%nat.
Proof.
  assert (H : forall n (t : jsstring), (length t <= n)%nat -> (length t <= utf8_length t)%nat).
  { induction n as [|n IH]; intros t Hn.
    - destruct t; simpl in *; lia.
    - destruct t as [|c [|lo rest]].
      + simpl; lia.
      + simpl. repeat match goal with |- context [if ?b then _ else _] => destruct b end; lia.
      + assert (H1 : (length (lo :: rest) <= utf8_length (lo :: rest))%nat)
          by (apply IH; simpl in *; lia).
        assert (H2 : (length rest <= utf8_length rest)%nat)
          by (apply IH; simpl in *; lia).
        change (utf8_length (c :: lo :: rest)) with
          (if (c <? 128)%N then 1 + utf8_length (lo :: rest)
           else if (c <? 2048)%N then 2 + utf8_length (lo :: rest)
           else if is_high_surrogate c then
                  if is_low_surrogate lo then 4 + utf8_length rest
                  else 3 + utf8_length (lo :: rest)
           else 3 + utf8_length (lo :: rest))%nat.
        change (length (c :: lo :: rest)) with (S (length (lo :: rest))).
        change (length (lo :: rest)) with (S (length rest)) in *.
        repeat match goal with |- context [if ?b then _ else _] => destruct b end; lia. }
  apply (H (length s)). lia.
Qed.

Lemma is_some_option_map (A B : Type) (f : A -> B) (o : option A) :
  is_some (option_map f o) = is_some o.
Proof. now destruct o. Qed.

Lemma lookup_remove_key_same (A : Type) (k : jsstring) (ps : list (jsstring * A)) :
  lookup k (remove_key k ps) = None.
Proof.
  induction ps as [|[k' x] ps IH]; simpl; [reflexivity|].
  destruct (jsstring_eqb k k') eqn:E; [exact IH|]. simpl. now rewrite E.
Qed.

Lemma lookup_remove_key_other (A : Type) (k k0 : jsstring) (ps : list (jsstring * A)) :
  k <> k0 -> lookup k (remove_key k0 ps) = lookup k ps.
Proof.
  intro Hne. induction ps as [|[k' x] ps IH]; simpl; [reflexivity|].
  destruct (jsstring_eqb k0 k') eqn:E0.
  - apply jsstring_eqb_eq in E0. subst k'.
    apply jsstring_eqb_neq in Hne. now rewrite Hne.
  - simpl. now rewrite IH.
Qed.

Lemma lookup_unique (A : Type) (k : jsstring) (sh : list (jsstring * A)) (x y : A) :
  unique (List.map fst sh) = true ->
  lookup k sh = Some x -> In (k, y) sh -> y = x.
Proof.
  induction sh as [|[k' z] sh IH]; simpl; intros Hu Hl Hin; [destruct Hin|].
  apply andb_true_iff in Hu as [Hk Hu]. apply negb_true_iff in Hk.
  destruct (jsstring_eqb k k') eqn:E.
  - injection Hl as ->. destruct Hin as [[= _ ->]|Hin]; [reflexivity|].
    apply jsstring_eqb_eq in E. subst k'.
    now apply existsb_key_In with (x := y) in Hk.
  - destruct Hin as [[= -> _]|Hin]; [now rewrite jsstring_eqb_refl in E|].
    now apply IH.
Qed.

(** An object with a value for an optional key is accepted exactly when
    the value is accepted by the schema of the key and the object is
    accepted without the key. *)
Lemma optional_field_split (res : string -> shape) (sh : shape) (k0 : jsstring)
  (s0 : schema) (ps : list (jsstring * value)) (x : value) :
  unique (List.map fst sh) = true ->
  lookup k0 sh = Some (SOptional s0) ->
  lookup k0 ps = Some x -> x <> VUndefined ->
  is_some (run is_url res (VObj ps) (SObject sh)) =
  is_some (run is_url res x s0) &&
  is_some (run is_url res (VObj (remove_key k0 ps)) (SObject sh)).
Proof.
  intros Hu Hsh Hps Hx.
  rewrite !run_object_eq, !is_some_option_map, !object_fields_is_some.
  assert (Hk0 : forall sk, In (k0, sk) sh -> sk = SOptional s0)
    by (intros sk Hin; eapply lookup_unique; eauto).
  assert (Hhas : has k0 sh = true) by (unfold has; now rewrite Hsh).
  assert (Hgen :
    forallb (fun e => is_some (field is_url res ps (fst e) (snd e))) sh =
    (negb (has k0 sh) || is_some (run is_url res x s0)) &&
    forallb (fun e => is_some (field is_url res (remove_key k0 ps) (fst e) (snd e))) sh).
  { clear Hu Hsh Hhas. induction sh as [|[k sk] sh IH]; [reflexivity|].
    simpl forallb. rewrite IH by (intros; apply Hk0; now right). clear IH.
    unfold has at 2. simpl lookup.
    destruct (jsstring_eqb k0 k) eqn:E.
    - apply jsstring_eqb_eq in E. subst k.
      rewrite (Hk0 sk) by now left.
      unfold field at 1 3. rewrite Hps, lookup_remove_key_same.
      rewrite run_optional_eq. simpl.
      destruct x; try congruence; simpl;
        destruct (is_some _), (has k0 sh), (forallb _ sh); reflexivity.
    - assert (Hne : k <> k0) by (intros ->; now rewrite jsstring_eqb_refl in E).
      unfold field at 1 3. simpl fst. simpl snd.
      rewrite (lookup_remove_key_other _ Hne).
      fold (has k0 sh).
      destruct (is_some match lookup k ps with Some x0 => _ | None => _ end),
        (is_some (run is_url res x s0)), (has k0 sh), (forallb _ sh); reflexivity. }
  rewrite Hgen, Hhas. reflexivity.
Qed.

Lemma reply_chain_step (x : value) :
  parse MessageSchema x = Some x ->
  parse MessageSchema
    (VObj [ (js "message_id", num 19787);
            (js "date", num 1762922251);
            (js "chat", VObj [ (js "id", num 496499134); (js "type", str "private") ]);
            (js "reply_to_message", x) ]) =
  Some (VObj [ (js "message_id", num 19787);
            (js "date", num 1762922251);
            (js "chat", VObj [ (js "id", num 496499134); (js "type", str "private") ]);
            (js "reply_to_message", x) ]).
Proof.
  intros Hx.
  destruct x as [| | | | | |xs]; try discriminate Hx.
  rewrite parse_run. unfold MessageSchema at 1, z_object at 1. rewrite run_object_eq.
  match goal with
  | |- context [field is_url resolve ?ps] =>
      assert (Hf : field is_url resolve ps (js "reply_to_message")
                     (optional (z_lazy "MessageSchema")) = Some (VObj xs))
        by exact Hx
  end.
  cbn [List.map object_fields fst snd].
  rewrite Hf.
  reflexivity.
Qed.

Lemma reply_chain_accepted (n : nat) :
  parse MessageSchema (reply_chain n) = Some (reply_chain n).
Proof.
  induction n as [|n IH]; [vm_compute; reflexivity|].
  apply (reply_chain_step IH).
Qed.

(** C5: a Message with a [reply_to_message] is accepted exactly when the
    nested value is accepted by [MessageSchema] and the Message is accepted
    without the field, and the nested part of the result is the result of
    the nested value; a chain of replies of any depth is accepted. *)
Theorem reply_to_message_recursive :
  (forall ps x,
     lookup (js "reply_to_message") ps = Some x -> x <> VUndefined ->
     (is_some (parse MessageSchema (VObj ps)) = true <->
      is_some (parse MessageSchema x) = true /\
      is_some (parse MessageSchema (VObj (remove_key (js "reply_to_message") ps))) = true) /\
     (forall r, parse MessageSchema (VObj ps) = Some r ->
                parse MessageSchema x = Some (property r (js "reply_to_message")))) /\
  (forall n, parse MessageSchema (reply_chain n) = Some (reply_chain n)).
Proof.
  split; [|exact reply_chain_accepted].
  intros ps x Hps Hx. split.
  - rewrite !parse_run. unfold MessageSchema at 1 3, z_object.
    rewrite (@optional_field_split resolve _ (js "reply_to_message")
               (z_lazy "MessageSchema") ps x); try assumption; try reflexivity.
    rewrite andb_true_iff. rewrite run_lazy_eq. reflexivity.
  - intros r Hr. rewrite parse_run in Hr. unfold MessageSchema at 1, z_object in Hr.
    rewrite run_object_eq in Hr. apply option_map_Some in Hr as (out & Hout & ->).
    destruct (object_fields_lookup _ _ _ Hout) with
      (k := js "reply_to_message") (sk := optional (z_lazy "MessageSchema"))
      as (r & Hr & Hl); [reflexivity|apply lookup_In; reflexivity|].
    unfold field in Hr. rewrite Hps in Hr.
    unfold optional in Hr. rewrite run_optional_eq in Hr.
    destruct x; try congruence; simpl is_undefined in Hr; cbv iota in Hr;
      rewrite run_lazy_eq in Hr;
      (rewrite parse_run; unfold property, get;
       unfold has in Hl; rewrite Hps in Hl; simpl in Hl; rewrite Hl; exact Hr).
Qed.

Lemma callback_data_over_64_units_rejected (ps : list (jsstring * value)) (s : jsstring) :
  lookup (js "callback_data") ps = Some (VStr s) ->
  (64 < length s)%nat ->
  parse InlineKeyboardButtonSchema (VObj ps) = None.
Proof.
  intros Hps Hlen.
  assert (Hget : get (js "callback_data") ps = VStr s) by (unfold get; now rewrite Hps).
  apply optional_field_rejected with (k := js "callback_data") (sk := max 64 z_string);
    [reflexivity|rewrite Hget; discriminate|].
  rewrite Hget. simpl.
  destruct (Nat.leb_spec (length s) 64); [lia|reflexivity].
Qed.

Lemma callback_data_up_to_64_bytes_accepted (ps : list (jsstring * value)) (s : jsstring) :
  lookup (js "callback_data") ps = Some (VStr s) ->
  (utf8_length s <= 64)%nat ->
  is_some (parse InlineKeyboardButtonSchema (VObj ps)) =
  is_some (parse InlineKeyboardButtonSchema (VObj (remove_key (js "callback_data") ps))).
Proof.
  intros Hps Hlen. rewrite !parse_run. unfold InlineKeyboardButtonSchema, z_object.
  rewrite (@optional_field_split resolve _ (js "callback_data") (max 64 z_string) ps (VStr s));
    try assumption; try reflexivity; try discriminate.
  pose proof (utf8_length_ge s) as Hge. simpl.
  destruct (Nat.leb_spec (length s) 64); [reflexivity|lia].
Qed.

(** C1: the limit on [callback_data] is on the [length] of the string, not
    on its bytes: a button whose [callback_data] is 33 times the letter
    U+00E9, 66 bytes in UTF-8 (and in UTF-16), is accepted as it is. *)
Theorem callback_data_limit_counts_code_units :
  utf8_length accented_callback_data = 66%nat /\
  length accented_callback_data = 33%nat /\
  parse InlineKeyboardButtonSchema (button_with_callback_data accented_callback_data) =
  Some (button_with_callback_data accented_callback_data).
Proof. repeat split; vm_compute; reflexivity. Qed.

(** ** The reply markup union *)

Lemma sequence_all_some (A : Type) (l : list (option A)) :
  Forall (fun o => is_some o = true) l -> exists xs, sequence l = Some xs.
Proof.
  induction 1 as [|[a|] l Ha _ [xs IH]]; try discriminate.
  - now exists [].
  - exists (a :: xs). simpl. now rewrite IH.
Qed.

Lemma button_row_accepted (row : value) :
  (exists buttons,
     row = VArr buttons /\
     Forall (fun b => is_some (parse InlineKeyboardButtonSchema b) = true) buttons) ->
  is_some (run is_url resolve row (z_array InlineKeyboardButtonSchema)) = true.
Proof.
  intros (buttons & -> & Hb). unfold z_array. rewrite run_array_eq.
  destruct (@sequence_all_some _
              (List.map (fun x => run is_url resolve x InlineKeyboardButtonSchema) buttons))
    as [xs Hxs].
  - apply Forall_map. exact Hb.
  - now rewrite Hxs.
Qed.

Lemma inline_keyboard_accepted (ps : list (jsstring * value)) (rows : list value) :
  lookup (js "inline_keyboard") ps = Some (VArr rows) ->
  valid_button_rows rows ->
  exists parsed_rows,
    parse InlineKeyboardMarkupSchema (VObj ps) =
    Some (VObj [ (js "inline_keyboard", VArr parsed_rows) ]).
Proof.
  intros Hps Hrows.
  destruct (@sequence_all_some _
              (List.map (fun x => run is_url resolve x (z_array InlineKeyboardButtonSchema)) rows))
    as [xs Hxs].
  { apply Forall_map. unfold valid_button_rows in Hrows.
    eapply Forall_impl; [|exact Hrows]. intros row. apply button_row_accepted. }
  exists xs. rewrite parse_run. unfold InlineKeyboardMarkupSchema, z_object.
  rewrite run_object_eq. cbn [List.map object_fields fst snd].
  unfold field, has. rewrite Hps. unfold z_array at 1. rewrite run_array_eq, Hxs.
  reflexivity.
Qed.

Lemma union_first (v r : value) (o : schema) (os : list schema) :
  run is_url resolve v o = Some r ->
  run is_url resolve v (SUnion (o :: os)) = Some r.
Proof. intro H. now rewrite run_union_cons, H. Qed.

Lemma union_skip (v : value) (o : schema) (os : list schema) :
  run is_url resolve v o = None ->
  run is_url resolve v (SUnion (o :: os)) = run is_url resolve v (SUnion os).
Proof. intro H. now rewrite run_union_cons, H. Qed.

Lemma remove_keyboard_accepted (ps : list (jsstring * value)) :
  lookup (js "remove_keyboard") ps = Some (VBool true) ->
  selective_ok ps ->
  exists r, parse ReplyKeyboardRemoveSchema (VObj ps) = Some r /\
            property r (js "remove_keyboard") = VBool true.
Proof.
  intros Hps Hsel. rewrite parse_run. unfold ReplyKeyboardRemoveSchema, z_object.
  rewrite run_object_eq. cbn [List.map object_fields fst snd].
  unfold field, has. rewrite Hps. unfold selective_ok, get in Hsel.
  destruct (lookup (js "selective") ps) as [x|].
  - destruct Hsel as [->|[b ->]]; eexists; (split; [reflexivity|reflexivity]).
  - eexists; (split; [reflexivity|reflexivity]).
Qed.

Lemma undeclared_key_absent (v r : value) (sh : shape) (k : jsstring) :
  run is_url resolve v (SObject sh) = Some r ->
  existsb (jsstring_eqb k) (List.map fst sh) = false ->
  has_property r k = false.
Proof.
  destruct v as [| | | | | |ps]; try discriminate.
  rewrite run_object_eq. intros H Hk. apply option_map_Some in H as (out & Hout & ->).
  cbn [has_property]. unfold has.
  now rewrite (object_fields_lookup_other _ _ _ k Hout Hk).
Qed.

(** C6: the union takes the first candidate that accepts, in the order
    inline keyboard, reply keyboard, remove-keyboard, force-reply: the
    result of the union is the result of the inline keyboard candidate
    when it accepts, else that of the reply keyboard candidate when it
    accepts, else that of the remove-keyboard candidate when it accepts,
    else that of the force-reply candidate.  A payload whose
    [inline_keyboard] holds rows of valid buttons parses as the inline
    keyboard, and the result is accepted by none of the other three
    candidates.  A payload with [remove_keyboard: true] that neither the
    inline nor the reply keyboard candidate accepts parses as
    ReplyKeyboardRemove, with success when [selective] is absent or a
    boolean.  A payload the reply keyboard candidate accepts and the
    inline keyboard candidate does not parses as the reply keyboard,
    without [remove_keyboard] and [force_reply], also when it has
    [remove_keyboard: true] or [force_reply: true]. *)
Theorem reply_markup_first_match (ps : list (jsstring * value)) :
  (forall rows,
     lookup (js "inline_keyboard") ps = Some (VArr rows) ->
     valid_button_rows rows ->
     exists r,
       parse ReplyMarkupSchema (VObj ps) = Some r /\
       parse InlineKeyboardMarkupSchema (VObj ps) = Some r /\
       parse ReplyKeyboardMarkupSchema r = None /\
       parse ReplyKeyboardRemoveSchema r = None /\
       parse ForceReplySchema r = None) /\
  (lookup (js "remove_keyboard") ps = Some (VBool true) ->
   parse InlineKeyboardMarkupSchema (VObj ps) = None ->
   parse ReplyKeyboardMarkupSchema (VObj ps) = None ->
   parse ReplyMarkupSchema (VObj ps) = parse ReplyKeyboardRemoveSchema (VObj ps) /\
   (selective_ok ps ->
    exists r, parse ReplyMarkupSchema (VObj ps) = Some r /\
              property r (js "remove_keyboard") = VBool true)) /\
  (forall v,
     parse ReplyMarkupSchema v =
     match parse InlineKeyboardMarkupSchema v with
     | Some r => Some r
     | None =>
         match parse ReplyKeyboardMarkupSchema v with
         | Some r => Some r
         | None =>
             match parse ReplyKeyboardRemoveSchema v with
             | Some r => Some r
             | None => parse ForceReplySchema v
             end
         end
     end) /\
  (forall r,
     parse ReplyKeyboardMarkupSchema (VObj ps) = Some r ->
     parse InlineKeyboardMarkupSchema (VObj ps) = None ->
     parse ReplyMarkupSchema (VObj ps) = Some r /\
     has_property r (js "keyboard") = true /\
     has_property r (js "remove_keyboard") = false /\
     has_property r (js "force_reply") = false).
Proof.
  assert (Horder : forall v,
            parse ReplyMarkupSchema v =
            match parse InlineKeyboardMarkupSchema v with
            | Some r => Some r
            | None =>
                match parse ReplyKeyboardMarkupSchema v with
                | Some r => Some r
                | None =>
                    match parse ReplyKeyboardRemoveSchema v with
                    | Some r => Some r
                    | None => parse ForceReplySchema v
                    end
                end
            end).
  { intro v. unfold ReplyMarkupSchema, z_union. rewrite !parse_run.
    rewrite !run_union_cons, run_union_nil.
    now destruct (run is_url resolve v ForceReplySchema). }
  split; [|split; [|split; [exact Horder|]]].
  - intros rows Hps Hrows.
    destruct (inline_keyboard_accepted ps Hps Hrows) as [parsed Hparsed].
    eexists. split; [|split; [exact Hparsed|]].
    + unfold ReplyMarkupSchema, z_union. rewrite parse_run. apply union_first.
      exact Hparsed.
    + repeat split; reflexivity.
  - intros Hps Hinline Hreply.
    assert (Heq : parse ReplyMarkupSchema (VObj ps) =
                  parse ReplyKeyboardRemoveSchema (VObj ps)).
    { unfold ReplyMarkupSchema, z_union. rewrite !parse_run.
      rewrite union_skip by exact Hinline. rewrite union_skip by exact Hreply.
      rewrite run_union_cons.
      destruct (run is_url resolve (VObj ps) ReplyKeyboardRemoveSchema) as [r|] eqn:E;
        [reflexivity|].
      rewrite run_union_cons, run_union_nil.
      destruct (run is_url resolve (VObj ps) ForceReplySchema) as [r|] eqn:E'; [|reflexivity].
      exfalso. revert E E'. unfold ReplyKeyboardRemoveSchema, ForceReplySchema, z_object.
      rewrite !run_object_eq. cbn [List.map object_fields fst snd].
      unfold field, has. rewrite Hps.
      destruct (lookup (js "selective") ps) as [[]|]; simpl; intros E E';
        try discriminate E;
        destruct (lookup (js "force_reply") ps) as [[| |[]| | | |]|];
        try discriminate E';
        destruct (lookup (js "input_field_placeholder") ps) as [[]|];
        simpl in E'; try discriminate E';
        destruct (_ <=? 64)%nat; discriminate E'. }
    split; [exact Heq|].
    intro Hsel. rewrite Heq. now apply remove_keyboard_accepted.
  - intros r Hreply Hinline. split.
    + now rewrite Horder, Hinline, Hreply.
    + rewrite parse_run in Hreply. unfold ReplyKeyboardMarkupSchema, z_object in Hreply.
      split; [|split].
      * pose proof Hreply as Hr. rewrite run_object_eq in Hr.
        apply option_map_Some in Hr as (out & Hout & ->).
        destruct (object_fields_lookup _ _ _ Hout) with
          (k := js "keyboard") (sk := z_array (z_array KeyboardButtonSchema))
          as (rk & Hrk & Hl); [reflexivity|apply lookup_In; reflexivity|].
        cbn [has_property]. unfold has. rewrite Hl.
        unfold field in Hrk.
        destruct (lookup (js "keyboard") ps) as [x|]; [|discriminate Hrk].
        destruct x; try discriminate Hrk.
        rewrite run_array_eq in Hrk. apply option_map_Some in Hrk as (rs & _ & ->).
        unfold has. rewrite orb_true_r. reflexivity.
      * eapply undeclared_key_absent; [exact Hreply|reflexivity].
      * eapply undeclared_key_absent; [exact Hreply|reflexivity].
Qed.

(** ** The configuration *)

Lemma config_rejected (ps : list (jsstring * value)) (k : jsstring) (sk : schema) :
  lookup k (shape_of TelegramConfigSchema) = Some sk ->
  run is_url resolve (get k ps) sk = None ->
  new_TelegramBot (VObj ps) = Threw ZodError.
Proof.
  intros Hk Hv. unfold new_TelegramBot. rewrite parse_run.
  unfold TelegramConfigSchema, z_object in *. unfold shape_of in Hk.
  now rewrite (required_field_rejected _ ps k Hk Hv).
Qed.

(** C7: a configuration with a non-empty token and no base address and
    no timeout constructs a client with the default base address and the
    timeout 30000; construction fails when the token is empty, when the
    base address is not a URL, and when the timeout is not a positive
    integer. *)
Theorem config_defaults_and_validation (ps : list (jsstring * value)) :
  (forall token,
     get (js "botToken") ps = VStr token -> token <> [] ->
     get (js "baseUrl") ps = VUndefined -> get (js "timeout") ps = VUndefined ->
     new_TelegramBot (VObj ps) = Returned {| config := default_config token |}) /\
  (get (js "botToken") ps = VStr [] -> new_TelegramBot (VObj ps) = Threw ZodError) /\
  (forall u, get (js "baseUrl") ps = VStr u -> is_url u = false ->
     new_TelegramBot (VObj ps) = Threw ZodError) /\
  (get (js "timeout") ps <> VUndefined -> ~ positive_integer (get (js "timeout") ps) ->
     new_TelegramBot (VObj ps) = Threw ZodError).
Proof.
  repeat split.
  - intros token Htoken Hne Hbase Htime.
    unfold new_TelegramBot. rewrite parse_run.
    unfold TelegramConfigSchema, z_object. rewrite run_object_eq.
    cbn [List.map object_fields fst snd]. unfold field, has, get in *.
    destruct (lookup (js "botToken") ps) as [x|]; [|discriminate]. subst x.
    destruct token as [|c token]; [congruence|].
    destruct (lookup (js "baseUrl") ps) as [x|]; [subst x|];
      (destruct (lookup (js "timeout") ps) as [y|]; [subst y|]);
      reflexivity.
  - intro Htoken.
    apply config_rejected with (k := js "botToken") (sk := min 1 z_string);
      [reflexivity|now rewrite Htoken].
  - intros u Hbase Hurl.
    apply config_rejected with (k := js "baseUrl")
      (sk := default (str "https://api.telegram.org") (url z_string)); [reflexivity|].
    rewrite Hbase. simpl. now rewrite Hurl.
  - intros Hdef Hpos.
    apply config_rejected with (k := js "timeout")
      (sk := default (num 30000) (positive (int z_number))); [reflexivity|].
    destruct (get (js "timeout") ps) as [| | |q| | |]; try reflexivity; [congruence|].
    simpl. unfold is_safe_integer.
    destruct (is_integer q) eqn:Ei; [|reflexivity].
    destruct (0 <? Qnum q)%Z eqn:Ep.
    + exfalso. apply Hpos. exists q. repeat split; [exact Ei|now apply Z.ltb_lt].
    + now rewrite !andb_false_r.
Qed.

(** ** The masked token *)

Lemma starts_with_length (s t : jsstring) :
  starts_with s t = true -> (length t <= length s)%nat.
Proof.
  revert s; induction t as [|y t IH]; intros [|x s]; simpl; intro H;
    try lia; try discriminate.
  apply andb_true_iff in H as [_ H]. apply IH in H. lia.
Qed.

Lemma includes_length (s t : jsstring) :
  includes s t = true -> (length t <= length s)%nat.
Proof.
  induction s as [|x s IH]; intro H.
  - destruct t; simpl in *; [lia|discriminate].
  - change (includes (x :: s) t) with (starts_with (x :: s) t || includes s t) in H.
    apply orb_true_iff in H as [H|H].
    + now apply starts_with_length in H.
    + apply IH in H. simpl. lia.
Qed.

Lemma slice_first_three (t : jsstring) :
  (3 <= length t)%nat -> slice t 0 (Some 3%Z) = firstn 3 t.
Proof.
  intro H. unfold slice.
  assert (Hfrom : relative_index (Z.of_nat (length t)) 0 = 0%Z)
    by (unfold relative_index; change (0 <? 0)%Z with false; cbv iota; lia).
  assert (Hto : relative_index (Z.of_nat (length t)) 3 = 3%Z)
    by (unfold relative_index; change (3 <? 0)%Z with false; cbv iota; lia).
  rewrite Hfrom, Hto. reflexivity.
Qed.

Lemma slice_last_three (t : jsstring) :
  (3 <= length t)%nat -> slice t (-3) None = skipn (length t - 3) t.
Proof.
  intro H. unfold slice.
  assert (Hfrom : relative_index (Z.of_nat (length t)) (-3) = Z.of_nat (length t - 3))
    by (unfold relative_index; change (-3 <? 0)%Z with true; cbv iota; lia).
  rewrite Hfrom, Nat2Z.id.
  replace (Z.to_nat (Z.of_nat (length t) - Z.of_nat (length t - 3))) with 3%nat by lia.
  apply firstn_all2. rewrite length_skipn. lia.
Qed.

(** C8: for a token of at least 10 characters the masked token is its
    first 3 characters, three dots and its last 3 characters, and does not
    contain the token; for a shorter token it is three asterisks; for the
    token of the specification it contains the dots and not the secret
    part. *)
Theorem masked_token (bot : TelegramBot) :
  ((10 <= length (botToken (config bot)))%nat ->
   getBotTokenMasked bot =
     firstn 3 (botToken (config bot)) ++ js "..." ++
     skipn (length (botToken (config bot)) - 3) (botToken (config bot)) /\
   includes (getBotTokenMasked bot) (botToken (config bot)) = false) /\
  ((length (botToken (config bot)) < 10)%nat -> getBotTokenMasked bot = js "***") /\
  (botToken (config bot) = js "123456789:ABCdefGHIjklMNOpqrsTUVwxyz" ->
   getBotTokenMasked bot = js "123...xyz" /\
   includes (getBotTokenMasked bot) (js "...") = true /\
   includes (getBotTokenMasked bot) (js "ABCdefGHIjklMNOpqrsTUVwxyz") = false).
Proof.
  unfold getBotTokenMasked. set (t := botToken (config bot)).
  split; [|split].
  - intro H. destruct (Nat.ltb_spec (length t) 10); [lia|].
    rewrite slice_first_three, slice_last_three by lia. split; [reflexivity|].
    destruct (includes _ t) eqn:E; [|reflexivity].
    apply includes_length in E.
    rewrite !length_app, length_firstn, length_skipn in E.
    change (length (js "...")) with 3%nat in E. lia.
  - intro H. destruct (Nat.ltb_spec (length t) 10); [reflexivity|lia].
  - intros ->. repeat split; vm_compute; reflexivity.
Qed.

(** ** The requests of the client *)

Lemma call_request (op : operation) (bot : TelegramBot) (ps : params) (fetch : transport) :
  call op bot ps fetch =
  match unwrap (fetch (getApiUrl bot (method_name op)) (sent_init op ps)) with
  | Returned result => Returned result
  | Threw e => Threw (rethrow bot e)
  end.
Proof. destruct op; reflexivity. Qed.

Lemma form_entries_parts (ps : params) :
  form_entries ps =
  flat_map (fun kp => match form_part (snd kp) with
                      | Some part => [(fst kp, part)]
                      | None => []
                      end) ps.
Proof.
  induction ps as [|[k p] ps IH]; [reflexivity|].
  simpl. rewrite <- IH. destruct p as [b|[]]; reflexivity.
Qed.

Lemma binary_file_parameter (op : operation) (ps : params) :
  file_parameter_is_binary op ps = true -> has_binary ps = true.
Proof.
  unfold file_parameter_is_binary, has_binary. destruct (file_parameter op) as [k|];
    [|discriminate].
  induction ps as [|[k' p] ps IH]; [discriminate|].
  cbn [lookup existsb snd].
  destruct (jsstring_eqb k k').
  - destruct p; [reflexivity|discriminate].
  - intro H. rewrite (IH H). apply orb_true_r.
Qed.

(** C2: an operation sends multipart form data exactly when the one
    parameter it tests ([certificate] for setWebhook, [photo] for
    sendPhoto, none for sendMessage) is binary.  The form then holds, in
    the order of the parameters, binary content as it is, objects and
    arrays JSON-serialized and scalars as strings, with no entry for
    [null] and [undefined].  Otherwise the parameter set is one JSON
    body under a JSON content-type header.  Each call hands that one
    request to the transport. *)
Theorem request_encoding (op : operation) (ps : params) :
  is_multipart (sent_init op ps) = file_parameter_is_binary op ps /\
  (file_parameter_is_binary op ps = true ->
   has_binary ps = true /\
   sent_init op ps =
     {| http_method := js "POST";
        headers := [];
        body := BodyFormData
                  (flat_map (fun kp => match form_part (snd kp) with
                                       | Some part => [(fst kp, part)]
                                       | None => []
                                       end) ps) |}) /\
  (file_parameter_is_binary op ps = false ->
   sent_init op ps =
     {| http_method := js "POST";
        headers := [(js "Content-Type", js "application/json")];
        body := BodyText (JSON_stringify (json_view ps)) |}) /\
  (forall bot fetch,
     call op bot ps fetch =
     match unwrap (fetch (getApiUrl bot (method_name op)) (sent_init op ps)) with
     | Returned result => Returned result
     | Threw e => Threw (rethrow bot e)
     end).
Proof.
  split; [|split; [|split]].
  - destruct op; unfold sent_init, file_parameter_is_binary, file_parameter;
      try destruct (is_binary _); reflexivity.
  - intro H. split; [now apply binary_file_parameter with (op := op)|].
    rewrite <- form_entries_parts.
    destruct op; unfold sent_init, file_parameter_is_binary, file_parameter in *;
      try discriminate; rewrite H; reflexivity.
  - intro H.
    destruct op; unfold sent_init, file_parameter_is_binary, file_parameter in *;
      try rewrite H; reflexivity.
  - intros bot fetch. apply call_request.
Qed.

(** C3: when the transport answers with an envelope whose [ok] is
    [false], every operation throws a [TelegramAPIError] whose [errorCode]
    and [description] are the [error_code] and the [description] of the
    envelope; when [ok] is [true] it returns the [result] of the
    envelope. *)
Theorem envelope_unwrapped (op : operation) (bot : TelegramBot) (ps : params)
  (fetch : transport) (envelope : list (jsstring * value)) :
  fetch (getApiUrl bot (method_name op)) (sent_init op ps) =
    Response (Returned (VObj envelope)) ->
  (get (js "ok") envelope = VBool false ->
   exists e,
     call op bot ps fetch = Threw (APIError e) /\
     errorCode e = get (js "error_code") envelope /\
     description e = get (js "description") envelope) /\
  (get (js "ok") envelope = VBool true ->
   call op bot ps fetch = Returned (get (js "result") envelope)).
Proof.
  intro Hfetch. rewrite call_request, Hfetch. unfold unwrap, property. split.
  - intros ->. simpl. eexists. split; [reflexivity|]. split; reflexivity.
  - intros ->. reflexivity.
Qed.

(** ** Round trip and unknown keys *)

Lemma agree_same_declared (res : string -> shape) (sh : shape)
  (ps qs : list (jsstring * value)) :
  (forall k, has k sh = true -> lookup k qs = lookup k ps) ->
  agree res (SObject sh) (VObj ps) (VObj qs).
Proof.
  intro H. apply agree_object. apply Forall_forall. intros [k sk] Hin. simpl.
  rewrite H.
  - destruct (lookup k ps); constructor; apply agree_same.
  - unfold has. destruct (lookup k sh) eqn:E; [reflexivity|].
    exfalso. clear H. induction sh as [|[k' s'] sh IH]; [destruct Hin|].
    simpl in E. destruct (jsstring_eqb k k') eqn:Ek; [discriminate|].
    destruct Hin as [[= -> _]|Hin]; [now rewrite jsstring_eqb_refl in Ek|auto].
Qed.

Lemma agree_extra_key (res : string -> shape) (sh : shape)
  (ps : list (jsstring * value)) (k : jsstring) (x : value) :
  has k sh = false ->
  agree res (SObject sh) (VObj ps) (VObj ((k, x) :: ps)).
Proof.
  intro H. apply agree_same_declared. intros k' Hk'. simpl.
  destruct (jsstring_eqb k' k) eqn:E; [|reflexivity].
  apply jsstring_eqb_eq in E. subst k'. congruence.
Qed.

Lemma absent_stays_absent (res : string -> shape) (sh : shape)
  (out ps : list (jsstring * value)) :
  agree res (SObject sh) (VObj out) (VObj ps) ->
  only_declared res (SObject sh) (VObj out) ->
  forall k, has k ps = false -> has k out = false.
Proof.
  intros Hag Hod k Hk. unfold has in *.
  destruct (lookup k out) as [x|] eqn:E; [|reflexivity]. exfalso.
  inversion Hag as [| | |? ? ? Hsh|]; subst; [now rewrite E in Hk|].
  inversion Hod as [? ? Hleaf| |? ? Hout| | | | | |]; subst; [discriminate|].
  pose proof (lookup_In _ _ E) as Hx. rewrite Forall_forall in Hout.
  destruct (Hout _ Hx) as (sk & Hin & _). simpl in Hin.
  rewrite Forall_forall in Hsh. specialize (Hsh _ Hin). simpl in Hsh.
  inversion Hsh as [Ho Hp|? ? ? Ho Hp].
  - rewrite E in Ho. discriminate.
  - rewrite <- Hp in Hk. discriminate.
Qed.

Lemma agree_replaced_field (res : string -> shape) (sh : shape)
  (ps : list (jsstring * value)) (k : jsstring) (x x' : value) :
  lookup k ps = Some x ->
  (forall sk, In (k, sk) sh -> agree res sk x x') ->
  agree res (SObject sh) (VObj ps) (VObj ((k, x') :: ps)).
Proof.
  intros Hps Hk. apply agree_object. apply Forall_forall. intros [k' sk] Hin.
  cbn [fst snd lookup]. destruct (jsstring_eqb k' k) eqn:E.
  - apply jsstring_eqb_eq in E. subst k'. rewrite Hps. constructor. now apply Hk.
  - destruct (lookup k' ps); constructor; apply agree_same.
Qed.

(** ** The schemas validate the data model *)

Lemma same_strings_eq (a b : list jsstring) : same_strings a b = true -> a = b.
Proof.
  revert b; induction a as [|x a IH]; intros [|y b] H; try discriminate; [reflexivity|].
  cbn [same_strings] in H. apply andb_true_iff in H as [Hx H].
  apply jsstring_eqb_eq in Hx as ->. now rewrite (IH _ H).
Qed.

Lemma entity_index_injective (e e' : entity) :
  Nat.eqb (entity_index e') (entity_index e) = true -> e' = e.
Proof. destruct e, e'; first [reflexivity|discriminate]. Qed.

Lemma find_attribute_Some (k : jsstring) (attrs : list attribute) (a : attribute) :
  find_attribute k attrs = Some a -> In a attrs /\ js (attr_name a) = k.
Proof.
  unfold find_attribute. intro H. apply find_some in H as [Hin E].
  apply jsstring_eqb_eq in E. now split.
Qed.

Lemma find_attribute_In (attrs : list attribute) (a : attribute) :
  unique (List.map (fun a => js (attr_name a)) attrs) = true ->
  In a attrs -> find_attribute (js (attr_name a)) attrs = Some a.
Proof.
  unfold find_attribute. induction attrs as [|b attrs IH]; intros Hu Hin; [destruct Hin|].
  cbn [List.map unique] in Hu. apply andb_true_iff in Hu as [Hb Hu].
  cbn [find]. destruct Hin as [->|Hin].
  - now rewrite jsstring_eqb_refl.
  - destruct (jsstring_eqb (js (attr_name a)) (js (attr_name b))) eqn:E;
      [|now apply IH].
    exfalso. apply jsstring_eqb_eq in E. apply negb_true_iff in Hb.
    assert (Hex : existsb (jsstring_eqb (js (attr_name b)))
                    (List.map (fun a => js (attr_name a)) attrs) = true).
    { apply existsb_exists. exists (js (attr_name a)). split.
      - apply in_map_iff. now exists a.
      - rewrite E. apply jsstring_eqb_refl. }
    congruence.
Qed.

Lemma lookup_None_keys (A : Type) (k : jsstring) (sh : list (jsstring * A)) :
  lookup k sh = None -> existsb (jsstring_eqb k) (List.map fst sh) = false.
Proof.
  induction sh as [|[k' x] sh IH]; [reflexivity|]. cbn [lookup List.map existsb fst].
  destruct (jsstring_eqb k k'); [discriminate|exact IH].
Qed.

(** What [implements] says of an object schema and an entity. *)
Lemma implements_entity (sh : shape) (e : entity) :
  implements (SObject sh) (An e) = true ->
  unique (List.map fst sh) = true /\
  unique (List.map (fun a => js (attr_name a)) (attributes e)) = true /\
  (forall a, In a (attributes e) -> exists sk, In (js (attr_name a), sk) sh) /\
  (forall key sk, In (key, sk) sh ->
     match find_attribute key (attributes e) with
     | Some a =>
         if attr_required a then implements sk (attr_kind a) = true
         else exists inner, sk = SOptional inner /\ implements inner (attr_kind a) = true
     | None => exists inner, sk = SOptional inner
     end).
Proof.
  cbn [implements]. intro H.
  apply andb_true_iff in H as [H Hfields]. apply andb_true_iff in H as [H Hall].
  apply andb_true_iff in H as [Hu Hua].
  split; [exact Hu|]. split; [exact Hua|]. split.
  - intros a Hin. rewrite forallb_forall in Hall. specialize (Hall a Hin).
    unfold has in Hall. destruct (lookup (js (attr_name a)) sh) as [sk|] eqn:E;
      [|discriminate].
    exists sk. now apply lookup_In.
  - clear Hu Hall. induction sh as [|f sh IH]; intros key sk Hin; [destruct Hin|].
    apply andb_true_iff in Hfields as [Hf Hfields].
    destruct Hin as [->|Hin]; [|now apply IH]. cbn [fst snd] in Hf.
    destruct (find_attribute key (attributes e)) as [a|].
    + destruct (attr_required a); [exact Hf|].
      destruct sk; try discriminate. eauto.
    + destruct sk; try discriminate. eauto.
Qed.

Lemma implements_scalar (s : schema) (k : kind) :
  implements s k = true ->
  match k with
  | Integer => s = SNumber [Int]
  | Float => s = SNumber []
  | Boolean => s = SBoolean
  | Text => s = SString []
  | TextUpTo bytes => s = SString [MaxLength bytes]
  | UrlText => s = SString [Url]
  | OneOf names => s = SEnum (List.map js names)
  | Sequence k' => exists element, s = SArray element /\ implements element k' = true
  | An e =>
      (exists sh, s = SObject sh) \/
      exists name, s = SLazy name /\ lazy_entity name = Some e
  end.
Proof.
  destruct s as [cs|cs| | |options|element|sh| | | | |name]; cbn [implements];
    try discriminate.
  - destruct cs as [|[n|n|] [|c cs]], k; try discriminate; try reflexivity.
    intro H. apply Nat.eqb_eq in H. now subst.
  - destruct cs as [|[|] [|c cs]], k; try discriminate; reflexivity.
  - destruct k; try discriminate; reflexivity.
  - destruct k; try discriminate. intro H. now rewrite (same_strings_eq _ _ H).
  - destruct k; try discriminate. eauto.
  - destruct k; try discriminate. intros _. left. eauto.
  - destruct k; try discriminate.
    destruct (lazy_entity name) as [e'|] eqn:E; [|discriminate].
    intro H. apply entity_index_injective in H as ->. right. eauto.
Qed.

(** The shapes behind the two [z.lazy] references are the validators of
    the entities of their names. *)
Lemma lazy_implements (name : string) (e : entity) :
  lazy_entity name = Some e -> implements (SObject (resolve name)) (An e) = true.
Proof.
  unfold lazy_entity, resolve.
  destruct (String.eqb name "UserSchema"); [intros [= <-]; vm_compute; reflexivity|].
  destruct (String.eqb name "MessageSchema"); [intros [= <-]; vm_compute; reflexivity|].
  discriminate.
Qed.

Lemma valid_defined (k : kind) (v : value) : valid is_url k v -> is_undefined v = false.
Proof. now destruct 1. Qed.

Lemma safe_integers_items (xs : list value) :
  safe_integers (VArr xs) = true -> Forall (fun x => safe_integers x = true) xs.
Proof.
  cbn [safe_integers]. induction xs as [|x xs IH]; intro H; [constructor|].
  apply andb_true_iff in H as [Hx H]. constructor; auto.
Qed.

Lemma safe_integers_props (ps : list (jsstring * value)) :
  safe_integers (VObj ps) = true -> Forall (fun kv => safe_integers (snd kv) = true) ps.
Proof.
  cbn [safe_integers]. induction ps as [|kv ps IH]; intro H; [constructor|].
  apply andb_true_iff in H as [Hx H]. constructor; auto.
Qed.

(** A payload on which the validator of each kind accepts the valid
    payloads and keeps what they have. *)
Lemma items_run (k : kind) (element : schema) (xs : list value) :
  implements element k = true ->
  Forall (fun x => forall k s, implements s k = true -> valid is_url k x ->
                     safe_integers x = true ->
                     exists r, run is_url resolve x s = Some r /\ kept k x r) xs ->
  Forall (valid is_url k) xs ->
  Forall (fun x => safe_integers x = true) xs ->
  exists rs, sequence (List.map (fun x => run is_url resolve x element) xs) = Some rs /\
             Forall2 (kept k) xs rs.
Proof.
  intros Himp IH Hv. induction Hv as [|x xs Hx _ IHxs]; intro Hs.
  - exists []. split; [reflexivity|constructor].
  - inversion IH as [|? ? Hax Haxs]; subst. inversion Hs as [|? ? Hsx Hsxs]; subst.
    destruct (Hax k element Himp Hx Hsx) as (r & Hr & Hk).
    destruct (IHxs Haxs Hsxs) as (rs & Hrs & Hks).
    exists (r :: rs). cbn [List.map sequence]. rewrite Hr, Hrs.
    split; [reflexivity|now constructor].
Qed.

Lemma entity_run (sh : shape) (e : entity) (ps : list (jsstring * value)) :
  implements (SObject sh) (An e) = true ->
  Forall (fun kv => forall k s, implements s k = true -> valid is_url k (snd kv) ->
                      safe_integers (snd kv) = true ->
                      exists r, run is_url resolve (snd kv) s = Some r /\
                                kept k (snd kv) r) ps ->
  valid is_url (An e) (VObj ps) ->
  safe_integers (VObj ps) = true ->
  exists out,
    object_fields (fun k => has k ps) (field is_url resolve ps) sh = Some out /\
    kept (An e) (VObj ps) (VObj out).
Proof.
  intros Himp IH Hv Hsafe.
  destruct (implements_entity _ _ Himp) as (Hu & Hua & Hall & Hf).
  inversion Hv as [| | | | | | | |e' ps' Hattrs Hclosed]; subst.
  apply safe_integers_props in Hsafe.
  rewrite Forall_forall in IH, Hattrs, Hclosed, Hsafe.
  assert (F : forall key sk, In (key, sk) sh ->
            exists r, field is_url resolve ps key sk = Some r /\
              match find_attribute key (attributes e) with
              | Some a =>
                  opt_rel (kept (attr_kind a)) (lookup key ps)
                    (if has key ps || negb (is_undefined r) then Some r else None)
              | None => has key ps = false /\ r = VUndefined
              end).
  { intros key sk Hin. specialize (Hf key sk Hin). unfold field, has.
    destruct (find_attribute key (attributes e)) as [a|] eqn:Ea.
    - apply find_attribute_Some in Ea as [Ha <-].
      specialize (Hattrs a Ha). cbn beta in Hattrs.
      inversion Hattrs as [Hopt E|x Hx E]; subst.
      + rewrite Hopt in Hf. destruct Hf as (inner & -> & _).
        exists VUndefined. split; [reflexivity|]. constructor.
      + symmetry in E. pose proof (lookup_In _ _ E) as Hin_ps.
        pose proof (IH _ Hin_ps) as IHx. pose proof (Hsafe _ Hin_ps) as Hsx.
        cbn [snd] in IHx, Hsx.
        destruct (attr_required a).
        * destruct (IHx _ _ Hf Hx Hsx) as (r & Hr & Hk).
          exists r. split; [exact Hr|]. cbn [orb]. now constructor.
        * destruct Hf as (inner & -> & Hinner).
          destruct (IHx _ _ Hinner Hx Hsx) as (r & Hr & Hk).
          exists r. rewrite run_optional_eq, (valid_defined Hx).
          split; [exact Hr|]. cbn [orb]. now constructor.
    - destruct Hf as (inner & ->).
      destruct (lookup key ps) as [x|] eqn:E.
      + exfalso. apply lookup_In in E. specialize (Hclosed _ E). cbn [fst] in Hclosed.
        unfold has_attribute in Hclosed. rewrite Ea in Hclosed. discriminate.
      + exists VUndefined. split; [reflexivity|now split]. }
  destruct (object_fields (fun k => has k ps) (field is_url resolve ps) sh)
    as [out|] eqn:Eout.
  - exists out. split; [reflexivity|]. apply kept_entity.
    + apply Forall_forall. intros a Ha.
      destruct (Hall a Ha) as [sk Hin].
      destruct (object_fields_lookup _ _ _ Eout Hu _ _ Hin) as (r & Hr & Hl).
      destruct (F _ _ Hin) as (r' & Hr' & Hk).
      rewrite Hr in Hr'. injection Hr' as <-.
      rewrite (@find_attribute_In _ a Hua Ha) in Hk. now rewrite Hl.
    + intros key Hkey. destruct (lookup key sh) as [sk|] eqn:Esh.
      * apply lookup_In in Esh.
        destruct (object_fields_lookup _ _ _ Eout Hu _ _ Esh) as (r & Hr & Hl).
        destruct (F _ _ Esh) as (r' & Hr' & Hk).
        rewrite Hr in Hr'. injection Hr' as <-.
        unfold has_attribute in Hkey.
        destruct (find_attribute key (attributes e)); [discriminate|].
        destruct Hk as [Hhas ->]. now rewrite Hl, Hhas.
      * apply (object_fields_lookup_other _ _ _ key Eout).
        now apply lookup_None_keys.
  - exfalso.
    assert (Hs : is_some (object_fields (fun k => has k ps)
                            (field is_url resolve ps) sh) = true).
    { rewrite object_fields_is_some. apply forallb_forall. intros [key sk] Hin.
      destruct (F key sk Hin) as (r & Hr & _). cbn [fst snd]. now rewrite Hr. }
    rewrite Eout in Hs. discriminate.
Qed.

Lemma valid_run (v : value) :
  forall k s, implements s k = true -> valid is_url k v -> safe_integers v = true ->
  exists r, run is_url resolve v s = Some r /\ kept k v r.
Proof.
  induction v as [| |c|q|x|ys IH|qs IH] using value_deep_ind;
    intros k s Himp Hv Hsafe; inversion Hv; subst;
    pose proof (implements_scalar _ _ Himp) as Hs; cbn beta iota in Hs.
  - subst s. exists (VBool c). split; [reflexivity|now constructor].
  - subst s. exists (VNum q). split; [|now constructor].
    cbn [safe_integers] in Hsafe.
    match goal with Hi : is_integer q = true |- _ => rewrite Hi in Hsafe end.
    cbn [negb orb] in Hsafe. cbn. now rewrite Hsafe.
  - subst s. exists (VNum q). split; [reflexivity|now constructor].
  - subst s. exists (VStr x). split; [reflexivity|now constructor].
  - subst s. exists (VStr x). split; [|now constructor].
    assert (Hlen : (length x <=? bytes)%nat = true).
    { apply Nat.leb_le. pose proof (utf8_length_ge x). lia. }
    cbn. now rewrite Hlen.
  - subst s. exists (VStr (trim x)). split; [|constructor].
    cbn. match goal with Hu : is_url x = true |- _ => now rewrite Hu end.
  - subst s. exists (VStr x). split; [|now constructor].
    cbn. match goal with Hi : In x _ |- _ => apply existsb_eqb_In in Hi; now rewrite Hi end.
  - destruct Hs as (element & -> & Helement).
    destruct (@items_run _ element ys Helement IH) as (rs & Hrs & Hk);
      [assumption|now apply safe_integers_items|].
    exists (VArr rs). rewrite run_array_eq, Hrs. split; [reflexivity|].
    now constructor.
  - destruct Hs as [[sh ->]|(name & -> & Hname)].
    + destruct (@entity_run sh e qs Himp IH Hv Hsafe) as (out & Hout & Hk).
      exists (VObj out). rewrite run_object_eq, Hout. now split.
    + destruct (@entity_run (resolve name) e qs (lazy_implements _ Hname) IH Hv Hsafe)
        as (out & Hout & Hk).
      exists (VObj out). rewrite run_lazy_eq, run_object_eq, Hout. now split.
Qed.

(** C4: an Update payload that is valid for the data model and whose
    integers are in the safe range is accepted, and the result keeps what
    the payload has: every attribute of every entity is absent on both
    sides or present on both, a scalar equal to that of the payload, a
    sequence element by element, except that the URL of a [web_app] and of
    a [login_url] comes back without the white space at its ends; the
    result has no property besides the attributes, and no attribute that
    the payload lacks (none is there as [null] or [undefined]). *)
Theorem update_round_trip (v : value) :
  valid is_url (An Update) v -> safe_integers v = true ->
  exists r, parse UpdateSchema v = Some r /\ kept (An Update) v r.
Proof.
  intros Hv Hsafe. rewrite parse_run.
  apply valid_run; [vm_compute; reflexivity|exact Hv|exact Hsafe].
Qed.


(** C10: a payload that differs from an accepted Update payload only in
    fields the schema does not declare, at the top or inside nested
    objects, is accepted with the same result, and the result holds
    declared fields only. *)
Theorem unknown_keys_stripped (v v' r : value) :
  parse UpdateSchema v = Some r ->
  agree resolve UpdateSchema v v' ->
  parse UpdateSchema v' = Some r /\ only_declared resolve UpdateSchema r.
Proof.
  intros Hr Hag. split.
  - rewrite parse_run, (@run_agree resolve v' UpdateSchema v Hag). exact Hr.
  - exact (@run_only_declared resolve v UpdateSchema r Hr).
Qed.

(** ** The cases of the test suite, and a few more *)

Example parses_text_message_update :
  parse UpdateSchema text_update = Some parsed_text_update.
Proof. vm_compute. reflexivity. Qed.

Example parses_reply_keyboard :
  parse ReplyKeyboardMarkupSchema
    (VObj [ (js "keyboard",
              VArr [ VArr [ VObj [ (js "text", str "Button 1") ];
                            VObj [ (js "text", str "Button 2") ] ];
                     VArr [ VObj [ (js "text", str "Button 3") ] ] ]);
            (js "resize_keyboard", VBool true);
            (js "one_time_keyboard", VBool true) ]) =
  Some
    (VObj [ (js "keyboard",
              VArr [ VArr [ VObj [ (js "text", str "Button 1") ];
                            VObj [ (js "text", str "Button 2") ] ];
                     VArr [ VObj [ (js "text", str "Button 3") ] ] ]);
            (js "resize_keyboard", VBool true);
            (js "one_time_keyboard", VBool true) ]).
Proof. vm_compute. reflexivity. Qed.

Example parses_callback_query :
  parse CallbackQuerySchema
    (VObj [ (js "id", str "query123");
            (js "from", VObj [ (js "id", num 123456);
                               (js "is_bot", VBool false);
                               (js "first_name", str "John") ]);
            (js "chat_instance", str "chat123");
            (js "data", str "button_clicked") ]) =
  Some
    (VObj [ (js "id", str "query123");
            (js "from", VObj [ (js "id", num 123456);
                               (js "is_bot", VBool false);
                               (js "first_name", str "John") ]);
            (js "chat_instance", str "chat123");
            (js "data", str "button_clicked") ]).
Proof. vm_compute. reflexivity. Qed.

Example null_is_not_an_absent_field :
  parse UserSchema
    (VObj [ (js "id", num 123456);
            (js "is_bot", VBool false);
            (js "first_name", str "John");
            (js "last_name", VNull) ]) = None.
Proof. vm_compute. reflexivity. Qed.

Example fractional_id_rejected :
  parse UserSchema
    (VObj [ (js "id", VNum (3 # 2));
            (js "is_bot", VBool false);
            (js "first_name", str "John") ]) = None.
Proof. vm_compute. reflexivity. Qed.

Example web_app_needs_a_url (u : jsstring) :
  is_some (parse InlineKeyboardButtonSchema
             (VObj [ (js "text", str "Open");
                     (js "web_app", VObj [ (js "url", VStr u) ]) ])) = is_url u.
Proof.
  rewrite parse_run. unfold InlineKeyboardButtonSchema, z_object.
  rewrite run_object_eq, is_some_option_map, object_fields_is_some.
  cbn. destruct (is_url u); reflexivity.
Qed.

End Client.

(* ===================================================================== *)
(** * Closed instances *)
(* ===================================================================== *)

(** The theorems above hold for every URL check and every conversion of
    the platform; the instances below take [begins_with_http],
    [example_stringify] and [example_to_string]. *)

(** A chat of type [secret] is rejected. *)
Lemma chat_type_outside_set_rejected_witness :
  ~ In (property secret_chat (js "type")) chat_types /\
  parse begins_with_http ChatSchema secret_chat = None.
Proof.
  assert (H : ~ In (property secret_chat (js "type")) chat_types).
  { vm_compute. intros [H|[H|[H|[H|[]]]]]; discriminate H. }
  split; [exact H|].
  exact (proj1 (chat_type_outside_set_rejected begins_with_http secret_chat H)).
Defined.

(** The reply of depth one. *)
Lemma reply_to_message_recursive_witness :
  is_some (parse begins_with_http MessageSchema (VObj reply_fields)) = true <->
  is_some (parse begins_with_http MessageSchema (reply_chain 0)) = true /\
  is_some (parse begins_with_http MessageSchema
             (VObj (remove_key (js "reply_to_message") reply_fields))) = true.
Proof.
  apply (proj1 (reply_to_message_recursive begins_with_http) reply_fields (reply_chain 0)).
  - reflexivity.
  - discriminate.
Defined.

(** An inline keyboard of one button, a keyboard removal, and two
    payloads that several candidates accept: the earliest one decides. *)
Lemma reply_markup_first_match_witness :
  (exists r,
     parse begins_with_http ReplyMarkupSchema (VObj inline_payload) = Some r /\
     parse begins_with_http InlineKeyboardMarkupSchema (VObj inline_payload) = Some r /\
     parse begins_with_http ReplyKeyboardMarkupSchema r = None /\
     parse begins_with_http ReplyKeyboardRemoveSchema r = None /\
     parse begins_with_http ForceReplySchema r = None) /\
  parse begins_with_http ReplyMarkupSchema (VObj remove_payload) =
  parse begins_with_http ReplyKeyboardRemoveSchema (VObj remove_payload) /\
  (parse begins_with_http ReplyKeyboardRemoveSchema (VObj remove_and_reply_payload) =
     Some (VObj [ (js "remove_keyboard", VBool true) ]) /\
   parse begins_with_http ForceReplySchema (VObj remove_and_reply_payload) =
     Some (VObj [ (js "force_reply", VBool true) ]) /\
   parse begins_with_http ReplyMarkupSchema (VObj remove_and_reply_payload) =
     Some (VObj [ (js "keyboard", VArr [ VArr [ VObj [ (js "text", str "Yes") ] ] ]) ])) /\
  (parse begins_with_http ForceReplySchema (VObj force_and_remove_payload) =
     Some (VObj [ (js "force_reply", VBool true) ]) /\
   parse begins_with_http ReplyMarkupSchema (VObj force_and_remove_payload) =
     Some (VObj [ (js "remove_keyboard", VBool true) ])).
Proof.
  split; [|split; [|split]].
  - apply (proj1 (reply_markup_first_match begins_with_http inline_payload) like_rows).
    + reflexivity.
    + constructor; [|constructor].
      exists [button_with_callback_data (js "like")].
      split; [reflexivity|]. constructor; [vm_compute; reflexivity|constructor].
  - apply (proj1 (proj2 (reply_markup_first_match begins_with_http remove_payload)));
      vm_compute; reflexivity.
  - split; [vm_compute; reflexivity|]. split; [vm_compute; reflexivity|].
    apply (proj2 (proj2 (proj2 (reply_markup_first_match begins_with_http
                                  remove_and_reply_payload)))
             (VObj [ (js "keyboard",
                       VArr [ VArr [ VObj [ (js "text", str "Yes") ] ] ]) ]));
      vm_compute; reflexivity.
  - split; [vm_compute; reflexivity|].
    rewrite (proj1 (proj2 (proj2 (reply_markup_first_match begins_with_http
                                    force_and_remove_payload)))
               (VObj force_and_remove_payload)).
    vm_compute. reflexivity.
Defined.

(** The token of the specification alone gives the defaults; an empty
    token, a base address that is no URL and the timeout 0 are refused. *)
Lemma config_defaults_and_validation_witness :
  new_TelegramBot begins_with_http (VObj [ (js "botToken", str spec_token) ]) =
    Returned (client_of spec_token) /\
  new_TelegramBot begins_with_http (VObj [ (js "botToken", str "") ]) = Threw ZodError /\
  new_TelegramBot begins_with_http
    (VObj [ (js "botToken", str spec_token); (js "baseUrl", str "not a url") ]) =
    Threw ZodError /\
  new_TelegramBot begins_with_http
    (VObj [ (js "botToken", str spec_token); (js "timeout", num 0) ]) = Threw ZodError.
Proof.
  split; [|split; [|split]].
  - apply (proj1 (config_defaults_and_validation begins_with_http
                    [ (js "botToken", str spec_token) ]) (js spec_token)).
    + reflexivity.
    + discriminate.
    + reflexivity.
    + reflexivity.
  - apply (proj1 (proj2 (config_defaults_and_validation begins_with_http
                           [ (js "botToken", str "") ]))).
    reflexivity.
  - apply (proj1 (proj2 (proj2 (config_defaults_and_validation begins_with_http
                                  [ (js "botToken", str spec_token);
                                    (js "baseUrl", str "not a url") ])))
             (js "not a url")); reflexivity.
  - apply (proj2 (proj2 (proj2 (config_defaults_and_validation begins_with_http
                                  [ (js "botToken", str spec_token);
                                    (js "timeout", num 0) ])))).
    + discriminate.
    + intros (q & Hq & _ & Hpos). injection Hq as <-. discriminate Hpos.
Defined.

(** The token of the specification is masked as [123...xyz]. *)
Lemma masked_token_witness :
  (10 <= length (js spec_token))%nat /\
  getBotTokenMasked (client_of spec_token) = js "123...xyz" /\
  includes (getBotTokenMasked (client_of spec_token)) (js spec_token) = false /\
  includes (getBotTokenMasked (client_of spec_token)) (js "...") = true /\
  includes (getBotTokenMasked (client_of spec_token)) (js "ABCdefGHIjklMNOpqrsTUVwxyz") = false.
Proof.
  assert (Hlen : (10 <= length (botToken (config (client_of spec_token))))%nat)
    by (vm_compute; repeat constructor).
  destruct (masked_token (client_of spec_token)) as [Hlong [_ Hspec]].
  destruct (Hlong Hlen) as [_ Hfull].
  destruct (Hspec eq_refl) as (Hmask & Hdots & Hsecret).
  split; [exact Hlen|]. split; [exact Hmask|]. split; [exact Hfull|].
  split; [exact Hdots|exact Hsecret].
Defined.

(** A photo upload goes out as a form, a text message as JSON. *)
Lemma request_encoding_witness :
  (has_binary photo_upload = true /\
   sent_init example_stringify example_to_string SendPhoto photo_upload =
     {| http_method := js "POST";
        headers := [];
        body := BodyFormData
                  [ (js "chat_id", FormText (js "123456789"));
                    (js "photo", FormBinary (File (js "photo.jpg") [255; 216; 255]%N));
                    (js "caption", FormText (js "Uploaded photo"));
                    (js "reply_markup",
                      FormText
                        (js "{" ++ quote ++ js "inline_keyboard" ++ quote ++ js ":[[{" ++
                         quote ++ js "text" ++ quote ++ js ":" ++ quote ++ js "Like" ++ quote ++
                         js "," ++ quote ++ js "callback_data" ++ quote ++ js ":" ++
                         quote ++ js "like" ++ quote ++ js "}]]}")) ] |}) /\
  sent_init example_stringify example_to_string SendMessage hello_message =
    {| http_method := js "POST";
       headers := [ (js "Content-Type", js "application/json") ];
       body := BodyText
                 (js "{" ++ quote ++ js "chat_id" ++ quote ++ js ":123456789," ++
                  quote ++ js "text" ++ quote ++ js ":" ++
                  quote ++ js "Hello, World!" ++ quote ++ js "}") |}.
Proof.
  split.
  - apply (proj1 (proj2 (request_encoding example_stringify example_to_string []
                           SendPhoto photo_upload))).
    reflexivity.
  - apply (proj1 (proj2 (proj2 (request_encoding example_stringify example_to_string []
                                  SendMessage hello_message)))).
    reflexivity.
Defined.

(** The error envelope of the specification raises the API error with
    code 400; the envelope of a successful setWebhook returns [true]. *)
Lemma envelope_unwrapped_witness :
  (exists e,
     sendMessage example_stringify example_to_string [] (client_of spec_token)
       hello_message (mock_transport bad_request) = Threw (APIError e) /\
     errorCode e = num 400 /\
     description e = str "Bad Request") /\
  setWebhook example_stringify example_to_string [] (client_of spec_token)
    [ (js "url", PValue (str "https://example.com/webhook")) ]
    (mock_transport webhook_was_set) = Returned (VBool true).
Proof.
  split.
  - apply (proj1 (envelope_unwrapped example_stringify example_to_string []
                    SendMessage (client_of spec_token) hello_message
                    (mock_transport bad_request) (envelope := bad_request) eq_refl)).
    reflexivity.
  - apply (proj2 (envelope_unwrapped example_stringify example_to_string []
                    SetWebhook (client_of spec_token)
                    [ (js "url", PValue (str "https://example.com/webhook")) ]
                    (mock_transport webhook_was_set) (envelope := webhook_was_set) eq_refl)).
    reflexivity.
Defined.

(** Agreement of concrete payloads, by one constructor per field. *)
Ltac agreeing :=
  repeat
    (vm_compute;
     first
       [ apply agree_same
       | apply agree_optional | apply agree_array | apply agree_object
       | apply agree_lazy
       | apply Forall_nil | apply Forall_cons
       | apply Forall2_nil | apply Forall2_cons
       | apply opt_rel_none | apply opt_rel_some ]).

(** The test [valid_within] is sound: a payload it passes at some depth
    is valid for the data model. *)
Lemma valid_within_sound (url_test : jsstring -> bool) (depth : nat) :
  forall (k : kind) (v : value),
    valid_within url_test depth k v = true -> valid url_test k v.
Proof.
  induction depth as [|depth IH]; intros k v H; [discriminate|].
  simpl in H. destruct k, v; try discriminate.
  - now apply valid_integer.
  - apply valid_float.
  - apply valid_boolean.
  - apply valid_text.
  - apply valid_text_up_to, Nat.leb_le, H.
  - now apply valid_url.
  - apply valid_one_of, existsb_eqb_In, H.
  - apply valid_sequence, Forall_forall. intros x Hx.
    rewrite forallb_forall in H. apply IH, H, Hx.
  - apply andb_true_iff in H as [Hattrs Hclosed].
    rewrite forallb_forall in Hattrs, Hclosed.
    apply valid_entity; apply Forall_forall.
    + intros a Ha. specialize (Hattrs a Ha).
      destruct (lookup (js (attr_name a)) props) as [x|].
      * apply opt_all_some, IH, Hattrs.
      * apply opt_all_none. now destruct (attr_required a).
    + intros kv Hkv. exact (Hclosed kv Hkv).
Qed.

(** An update that uses most of the data model round-trips. *)
Lemma update_round_trip_witness :
  valid (is_url begins_with_http) (An Update) rich_update /\
  safe_integers rich_update = true /\
  exists r,
    parse begins_with_http UpdateSchema rich_update = Some r /\
    kept (An Update) rich_update r.
Proof.
  assert (H : valid (is_url begins_with_http) (An Update) rich_update).
  { apply (@valid_within_sound _ 12). vm_compute. reflexivity. }
  split; [exact H|]. split; [reflexivity|].
  exact (@update_round_trip begins_with_http rich_update H eq_refl).
Defined.


(** The update with three unknown keys has the result of the update
    without them. *)
Lemma unknown_keys_stripped_witness :
  parse begins_with_http UpdateSchema text_update = Some parsed_text_update /\
  agree resolve UpdateSchema text_update text_update_with_unknown_keys /\
  parse begins_with_http UpdateSchema text_update_with_unknown_keys =
    Some parsed_text_update /\
  only_declared resolve UpdateSchema parsed_text_update.
Proof.
  assert (Hr : parse begins_with_http UpdateSchema text_update = Some parsed_text_update)
    by (vm_compute; reflexivity).
  assert (Hag : agree resolve UpdateSchema text_update text_update_with_unknown_keys)
    by (unfold text_update, text_update_with_unknown_keys; agreeing).
  split; [exact Hr|]. split; [exact Hag|].
  exact (@unknown_keys_stripped begins_with_http text_update
           text_update_with_unknown_keys parsed_text_update Hr Hag).
Defined.

(** ** Inputs on which the claims of the specification fail *)

(** C4: an update whose button opens the address [https://example.com/app]
    written with a space after it is valid for the data model and is
    accepted, and the address of the result is not that of the payload:
    it has lost the space.  An update whose identifier is the integer
    [2^53] is valid for the data model and is rejected. *)
Lemma update_not_returned_as_it_came :
  (valid (is_url begins_with_http) (An Update) spaced_address_update /\
   safe_integers spaced_address_update = true /\
   parse begins_with_http UpdateSchema spaced_address_update =
     Some parsed_spaced_address_update /\
   web_app_address spaced_address_update = str "https://example.com/app " /\
   web_app_address parsed_spaced_address_update = str "https://example.com/app" /\
   web_app_address parsed_spaced_address_update <>
   web_app_address spaced_address_update) /\
  (valid (is_url begins_with_http) (An Update) large_id_update /\
   parse begins_with_http UpdateSchema large_id_update = None).
Proof.
  split.
  - split.
    { apply (@valid_within_sound _ 12). vm_compute. reflexivity. }
    split; [reflexivity|]. split; [vm_compute; reflexivity|].
    split; [reflexivity|]. split; [reflexivity|]. vm_compute. discriminate.
  - split.
    { apply (@valid_within_sound _ 12). vm_compute. reflexivity. }
    vm_compute. reflexivity.
Qed.

(** C6: a payload with [remove_keyboard: true] that is also an inline
    keyboard parses as the inline keyboard, not as ReplyKeyboardRemove. *)
Lemma remove_keyboard_parsed_as_inline :
  get (js "remove_keyboard") remove_and_inline_payload = VBool true /\
  parse begins_with_http ReplyMarkupSchema (VObj remove_and_inline_payload) =
    Some (VObj [ (js "inline_keyboard", VArr []) ]) /\
  parse begins_with_http ReplyKeyboardRemoveSchema (VObj remove_and_inline_payload) =
    Some (VObj [ (js "remove_keyboard", VBool true) ]) /\
  parse begins_with_http ReplyMarkupSchema (VObj remove_and_inline_payload) <>
  parse begins_with_http ReplyKeyboardRemoveSchema (VObj remove_and_inline_payload).
Proof.
  repeat split; try (vm_compute; reflexivity).
  vm_compute. discriminate.
Qed.

(** C8: a client accepts the token [short]; its masked token is three
    asterisks, not the first and last three characters.  The mask of the
    token [*] contains the token. *)
Lemma short_token_masked_by_asterisks :
  new_TelegramBot begins_with_http (VObj [ (js "botToken", str "short") ]) =
    Returned (client_of "short") /\
  getBotTokenMasked (client_of "short") = js "***" /\
  getBotTokenMasked (client_of "short") <> js "sho...ort" /\
  new_TelegramBot begins_with_http (VObj [ (js "botToken", str "*") ]) =
    Returned (client_of "*") /\
  includes (getBotTokenMasked (client_of "*")) (js "*") = true.
Proof.
  split; [vm_compute; reflexivity|].
  split; [vm_compute; reflexivity|].
  split; [vm_compute; discriminate|].
  split; vm_compute; reflexivity.
Qed.

(** C2: sendMessage sends a parameter set that holds binary content as a
    JSON body. *)
Lemma binary_parameter_sent_as_json :
  has_binary message_with_attachment = true /\
  is_multipart
    (sent_init example_stringify example_to_string SendMessage message_with_attachment) = false /\
  headers
    (sent_init example_stringify example_to_string SendMessage message_with_attachment) =
    [ (js "Content-Type", js "application/json") ].
Proof. repeat split; vm_compute; reflexivity. Qed.
